(** * GolangSizer: the bicubic resampling core

    A shallow embedding of the three internal packages of the resizer

    - [interpolation]: [CubicWeight], [ClampUint8], [ClampUint16],
      [GetSafeIndex], [CalculateKernelBounds], [InterpolateBicubic];
    - [validator]: [ValidateDimensions], [ValidateResizeRatio];
    - [resizer]: [NewResizer], [Resize] and its four per-depth paths.

    The Go code computes on [float64].  The embedding is written once over an
    interface of the float operations the code uses ([Float64Ops]) and is
    read at two instances:

    - [Q_ops]: exact rational arithmetic, where the algebraic facts about
      the kernel are proved for every input;
    - [F64_ops]: IEEE-754 binary64 (the kernel's primitive floats), every
      operation rounded on its own as on amd64, where the code is run bit
      for bit on concrete inputs and where the facts that rest on
      comparisons alone are proved for every float.

    Go's [int] is a 64-bit two's-complement integer: it is modelled as [Z]
    with the wrap-around written out ([wrap64]).

    The rest of the repository follows the three packages: [ValidatePath],
    package [imageio] ([LoadImage], [SaveImage], [GetImageFormat]) and the
    command ([parseFlags], [run], [main]), over an interface of the calls
    they make to the operating system and to the codecs ([System]). *)

From Stdlib Require Import ZArith QArith Qabs Qround Lia Lqa Bool List.
From Stdlib Require Import Floats.
From Stdlib Require String.
Import ListNotations.

Open Scope Z_scope.

(** ** Machine integers *)

Definition min_int64 : Z := - 2 ^ 63.
Definition max_int64 : Z := 2 ^ 63 - 1.

(** Two's-complement wrap-around of a 64-bit signed integer. *)
Definition wrap64 (z : Z) : Z := (z + 2 ^ 63) mod 2 ^ 64 - 2 ^ 63.

Definition int64_range (z : Z) : Prop := min_int64 <= z <= max_int64.

(** Conversion of an integer to an unsigned type of [bits] bits. *)
Definition wrapU (bits : Z) (z : Z) : Z := z mod 2 ^ bits.

(** ** The float64 interface *)

Class Float64Ops (F : Type) : Type := {
  f_add : F -> F -> F;
  f_sub : F -> F -> F;
  f_mul : F -> F -> F;
  f_div : F -> F -> F;
  f_ltb : F -> F -> bool;          (* x < y *)
  f_leb : F -> F -> bool;          (* x <= y *)
  f_abs : F -> F;                  (* math.Abs *)
  f_floor : F -> F;                (* math.Floor *)
  f_is_nan : F -> bool;            (* math.IsNaN *)
  f_is_inf : F -> bool;            (* math.IsInf(x, 0) *)
  f_of_int : Z -> F;               (* float64(n), n an int *)
  f_to_int : F -> Z;               (* int(x): truncation toward zero *)
  f_const : Q -> F                 (* an exact constant expression, converted *)
}.

Definition f_gtb {F} `{Float64Ops F} (x y : F) : bool := f_ltb y x.
Definition f_geb {F} `{Float64Ops F} (x y : F) : bool := f_leb y x.

Declare Scope f64_scope.
Delimit Scope f64_scope with f64.
Infix "+" := f_add : f64_scope.
Infix "-" := f_sub : f64_scope.
Infix "*" := f_mul : f64_scope.
Infix "/" := f_div : f64_scope.
Infix "<?" := f_ltb : f64_scope.
Infix "<=?" := f_leb : f64_scope.
Infix ">?" := f_gtb : f64_scope.
Infix ">=?" := f_geb : f64_scope.

(** *** Exact instance: rationals *)

Definition Qltb (x y : Q) : bool := negb (Qle_bool y x).

(** Truncation toward zero. *)
Definition Qtrunc (q : Q) : Z := Z.quot (Qnum q) (Zpos (Qden q)).

#[export] Instance Q_ops : Float64Ops Q := {|
  f_add := Qplus;
  f_sub := Qminus;
  f_mul := Qmult;
  f_div := Qdiv;
  f_ltb := Qltb;
  f_leb := Qle_bool;
  f_abs := Qabs;
  f_floor := fun q => inject_Z (Qfloor q);
  f_is_nan := fun _ => false;
  f_is_inf := fun _ => false;
  f_of_int := inject_Z;
  f_to_int := fun q => wrap64 (Qtrunc q);
  f_const := fun q => q
|}.

(** *** Machine instance: IEEE-754 binary64 *)

Module F64.

(** [float64(n)] for an [int] n: the nearest float, ties to even. *)
Definition of_int (z : Z) : float :=
  if z <? 0 then PrimFloat.opp (PrimFloat.of_uint63 (Uint63.of_Z (- z)))
  else PrimFloat.of_uint63 (Uint63.of_Z z).

(** The integer part of a finite float, toward zero. *)
Definition trunc_SF (x : spec_float) : option Z :=
  match x with
  | S754_zero _ => Some 0
  | S754_finite s m e =>
      let v := if 0 <=? e then Zpos m * 2 ^ e else Zpos m / 2 ^ (- e) in
      Some (if s then - v else v)
  | S754_infinity _ | S754_nan => None
  end.

(** The largest integer below a finite float. *)
Definition floor_SF (x : spec_float) : option Z :=
  match x with
  | S754_zero _ => Some 0
  | S754_finite s m e =>
      let n := if s then Zneg m else Zpos m in
      Some (if 0 <=? e then n * 2 ^ e else n / 2 ^ (- e))
  | S754_infinity _ | S754_nan => None
  end.

(** [int(x)]: truncation toward zero; what is not representable (NaN,
    infinities, magnitudes of 2^63 and more) becomes the integer
    indefinite value -2^63, as the amd64 conversion instruction does. *)
Definition to_int (x : float) : Z :=
  match trunc_SF (Prim2SF x) with
  | Some z => if (min_int64 <=? z) && (z <=? max_int64) then z else min_int64
  | None => min_int64
  end.

(** [math.Floor]: NaN, infinities, zeros and floats of magnitude 2^52 and
    more (all integers) are returned unchanged. *)
Definition floor (x : float) : float :=
  match floor_SF (Prim2SF x) with
  | Some z =>
      if PrimFloat.ltb (PrimFloat.abs x) (of_int (2 ^ 52))
      then (if PrimFloat.eqb x PrimFloat.zero then x else of_int z)
      else x
  | None => x
  end.

Definition is_nan (x : float) : bool := negb (PrimFloat.eqb x x).

Definition is_inf (x : float) : bool :=
  PrimFloat.eqb (PrimFloat.abs x) PrimFloat.infinity.

(** An exact constant with numerator and denominator below 2^53 converts
    to the correctly rounded quotient. *)
Definition const (q : Q) : float :=
  PrimFloat.div (of_int (Qnum q)) (of_int (Zpos (Qden q))).

End F64.

#[export] Instance F64_ops : Float64Ops float := {|
  f_add := PrimFloat.add;
  f_sub := PrimFloat.sub;
  f_mul := PrimFloat.mul;
  f_div := PrimFloat.div;
  f_ltb := PrimFloat.ltb;
  f_leb := PrimFloat.leb;
  f_abs := PrimFloat.abs;
  f_floor := F64.floor;
  f_is_nan := F64.is_nan;
  f_is_inf := F64.is_inf;
  f_of_int := F64.of_int;
  f_to_int := F64.to_int;
  f_const := F64.const
|}.

(** ** Errors *)

(** The sentinel errors of the three packages. *)
Inductive Sentinel : Type :=
| ErrInvalidCoordinate
| ErrInvalidChannel
| ErrInvalidDimension
| ErrNilImage.

(** The message a [fmt.Errorf("...: %w", err)] puts before the error it wraps. *)
Inductive Context : Type :=
| DimensionsTooSmall
| DimensionsTooLarge
| TotalPixelsExceedLimit
| WidthScaleOutOfRange
| HeightScaleOutOfRange
| InvalidConfig
| InvalidSourceDimensions
| InvalidResizeRatio
| SamplingFailedAt (x y : Z).

Inductive Error : Type :=
| Plain (s : Sentinel)
| Wrapped (c : Context) (e : Error).

(** The sentinel at the bottom of the chain ([errors.Is] compares with it). *)
Fixpoint root (e : Error) : Sentinel :=
  match e with
  | Plain s => s
  | Wrapped _ e' => root e'
  end.

Inductive result (A : Type) : Type :=
| Ok (a : A)
| Err (e : Error).
Arguments Ok {A} a.
Arguments Err {A} e.

(** ** Package interpolation *)

Module interpolation.
Section WithFloat.
Context {F : Type} `{Float64Ops F}.
Local Open Scope f64_scope.

Definition KernelSize : Z := 4.
Definition MaxUint16 : Z := 65535.
Definition MaxUint8 : Z := 255.

(** The constants of [CubicWeight]; Go evaluates the constant expressions
    built from them exactly. *)
Definition b : Q := (1 # 3)%Q.
Definition c : Q := (1 # 3)%Q.

(** The piece for [|x| < 1]. *)
Definition cubic_inner (x : F) : F :=
  (f_const (12 - 9 * b - 6 * c)%Q * x * x * x
   + f_const (-18 + 12 * b + 6 * c)%Q * x * x
   + f_const (6 - 2 * b)%Q) / f_const 6%Q.

(** The piece for [1 <= |x| < 2]. *)
Definition cubic_outer (x : F) : F :=
  (f_const (- b - 6 * c)%Q * x * x * x
   + f_const (6 * b + 30 * c)%Q * x * x
   + f_const (-12 * b - 48 * c)%Q * x
   + f_const (8 * b + 24 * c)%Q) / f_const 6%Q.

Definition CubicWeight (x : F) : F :=
  let x := f_abs x in
  if x <? f_const 1%Q then cubic_inner x
  else if x <? f_const 2%Q then cubic_outer x
  else f_const 0%Q.

(** [uint8(v)] and [uint16(v)] of a float: the integer part, which Go
    guarantees only when it fits the type (the low bits are kept here
    otherwise). *)
Definition to_uint (bits : Z) (v : F) : Z := wrapU bits (f_to_int v).

Definition ClampUint8 (value : F) : Z :=
  if value <? f_const 0%Q then 0%Z
  else if value >? f_of_int MaxUint8 then MaxUint8
  else to_uint 8 (value + f_const (1 # 2)%Q).

Definition ClampUint16 (value : F) : Z :=
  if value <? f_const 0%Q then 0%Z
  else if value >? f_of_int MaxUint16 then MaxUint16
  else to_uint 16 (value + f_const (1 # 2)%Q).

Definition GetSafeIndex (index maxIndex : Z) : Z :=
  if (index <? 0)%Z then 0%Z
  else if (index >=? maxIndex)%Z then wrap64 (maxIndex - 1)
  else index.

Definition halfKernel : Z := KernelSize / 2.

Definition CalculateKernelBounds (center : F) (maxBound : Z)
  : result (Z * Z) :=
  if (center <? f_const 0%Q) || (center >=? f_of_int maxBound)
  then Err (Plain ErrInvalidCoordinate)
  else
    let start := wrap64 (wrap64 (f_to_int (f_floor center) - halfKernel) + 1) in
    let end_ := wrap64 (start + KernelSize) in
    if negb (wrap64 (end_ - start) =? KernelSize)%Z
    then Err (Plain ErrInvalidCoordinate)
    else Ok (start, end_).

(** A [[KernelSize][KernelSize]float64] array, as a function of the row
    and column index. *)
Definition Pixels : Type := Z -> Z -> F.

(** The inner loop of [InterpolateBicubic]: [i] runs over [is_]. *)
Fixpoint row_sum (row : Z -> F) (dx : F) (is_ : list Z) (rowSum : F) : F :=
  match is_ with
  | [] => rowSum
  | i :: rest =>
      let wx := CubicWeight (f_of_int (i - 1) - dx) in
      row_sum row dx rest (rowSum + row i * wx)
  end.

(** The outer loop: [j] runs over [js]. *)
Fixpoint col_sum (pixels : Pixels) (dx dy : F) (js : list Z) (acc : F) : F :=
  match js with
  | [] => acc
  | j :: rest =>
      let wy := CubicWeight (f_of_int (j - 1) - dy) in
      let rowSum := row_sum (pixels j) dx [0; 1; 2; 3]%Z (f_const 0%Q) in
      col_sum pixels dx dy rest (acc + rowSum * wy)
  end.

Definition InterpolateBicubic (pixels : Pixels) (dx dy : F) : result F :=
  if (dx <? f_const 0%Q) || (dx >? f_const 1%Q)
     || (dy <? f_const 0%Q) || (dy >? f_const 1%Q)
  then Err (Plain ErrInvalidCoordinate)
  else
    let r := col_sum pixels dx dy [0; 1; 2; 3]%Z (f_const 0%Q) in
    if f_is_nan r || f_is_inf r
    then Err (Plain ErrInvalidChannel)
    else Ok r.

End WithFloat.
End interpolation.

Import interpolation.

(** ** Package validator *)

Module validator.

Definition MaxImageDimension : Z := 65535.
Definition MinImageDimension : Z := 1.

Definition ValidateDimensions (width height : Z) : result unit :=
  if (width <? MinImageDimension) || (height <? MinImageDimension)
  then Err (Wrapped DimensionsTooSmall (Plain ErrInvalidDimension))
  else if (width >? MaxImageDimension) || (height >? MaxImageDimension)
  then Err (Wrapped DimensionsTooLarge (Plain ErrInvalidDimension))
  else if wrap64 (width * height) >? MaxImageDimension * MaxImageDimension
  then Err (Wrapped TotalPixelsExceedLimit (Plain ErrInvalidDimension))
  else Ok tt.

Section WithFloat.
Context {F : Type} `{Float64Ops F}.
Local Open Scope f64_scope.

Definition maxScaleFactor : Q := 16%Q.
Definition minScaleFactor : Q := (1 # 16)%Q.

Definition ValidateResizeRatio
    (originalWidth originalHeight newWidth newHeight : Z) : result unit :=
  match ValidateDimensions originalWidth originalHeight with
  | Err e => Err e
  | Ok _ =>
  match ValidateDimensions newWidth newHeight with
  | Err e => Err e
  | Ok _ =>
    let widthRatio := f_of_int newWidth / f_of_int originalWidth in
    let heightRatio := f_of_int newHeight / f_of_int originalHeight in
    if (widthRatio >? f_const maxScaleFactor)
       || (widthRatio <? f_const minScaleFactor)
    then Err (Wrapped WidthScaleOutOfRange (Plain ErrInvalidDimension))
    else if (heightRatio >? f_const maxScaleFactor)
            || (heightRatio <? f_const minScaleFactor)
    then Err (Wrapped HeightScaleOutOfRange (Plain ErrInvalidDimension))
    else Ok tt
  end end.

End WithFloat.
End validator.

Import validator.

(** ** The images of the standard library, as the resizer uses them *)

Record Rectangle : Type := { MinX : Z; MinY : Z; MaxX : Z; MaxY : Z }.

Definition Dx (r : Rectangle) : Z := wrap64 (MaxX r - MinX r).
Definition Dy (r : Rectangle) : Z := wrap64 (MaxY r - MinY r).

(** [image.Rect(0, 0, w, h)] for non-negative [w] and [h]. *)
Definition Rect0 (w h : Z) : Rectangle :=
  {| MinX := 0; MinY := 0; MaxX := w; MaxY := h |}.

Definition In_rect (x y : Z) (r : Rectangle) : bool :=
  (MinX r <=? x) && (x <? MaxX r) && (MinY r <=? y) && (y <? MaxY r).

(** What [Color.RGBA()] returns: four [uint32], each at most 0xffff. *)
Record RGBA32 : Type := { r32 : Z; g32 : Z; b32 : Z; a32 : Z }.

Inductive ColorModel : Type :=
| RGBAModel | NRGBAModel | RGBA64Model | NRGBA64Model
| GrayModel | Gray16Model | OtherModel.

(** A source [image.Image]: its three methods, with [At] followed by
    [RGBA()]. *)
Record Image : Type := {
  Bounds : Rectangle;
  Model : ColorModel;
  At : Z -> Z -> RGBA32
}.

(** The four destination types. *)
Inductive Kind : Type := KRGBA | KRGBA64 | KGray | KGray16.

(** A destination buffer: one list of channel values per point of [Rect],
    row by row. *)
Record Buffer : Type := {
  kind : Kind;
  Rect : Rectangle;
  Pix : list (list Z)
}.

Definition channels (k : Kind) : nat :=
  match k with KRGBA | KRGBA64 => 4%nat | KGray | KGray16 => 1%nat end.

(** [image.NewRGBA], [image.NewRGBA64], [image.NewGray], [image.NewGray16]:
    every channel of every pixel starts at zero. *)
Definition NewBuffer (k : Kind) (r : Rectangle) : Buffer :=
  {| kind := k; Rect := r;
     Pix := repeat (repeat 0 (channels k)) (Z.to_nat (Dx r * Dy r)) |}.

Fixpoint set_nth {A} (n : nat) (v : A) (l : list A) : list A :=
  match l, n with
  | [], _ => []
  | _ :: t, O => v :: t
  | h :: t, S n' => h :: set_nth n' v t
  end.

(** [SetRGBA], [SetRGBA64], [SetGray], [SetGray16]: a point outside [Rect]
    is ignored. *)
Definition SetPixel (dst : Buffer) (x y : Z) (px : list Z) : Buffer :=
  if In_rect x y (Rect dst)
  then {| kind := kind dst; Rect := Rect dst;
          Pix := set_nth (Z.to_nat ((y - MinY (Rect dst)) * Dx (Rect dst)
                                    + (x - MinX (Rect dst)))) px (Pix dst) |}
  else dst.

(** An [image.Image] interface value as [Resize] returns it: the nil
    interface, or a pointer (itself nil or not) to one of the four types. *)
Inductive ImageValue : Type :=
| NilInterface
| Pointer (k : Kind) (p : option Buffer).

(** ** Effects of a resize: what is allocated and written, in order *)

Inductive Event : Type :=
| EvAlloc (k : Kind) (w h : Z)
| EvSample (x y : Z)
| EvSet (x y : Z).

(** The record of what a call has done so far, kept beside the computation;
    the most recent event comes first. *)
Definition Trace : Type := list Event.

Definition M (A : Type) : Type := Trace -> result A * Trace.

Definition ret {A} (a : A) : M A := fun t => (Ok a, t).
Definition fail {A} (e : Error) : M A := fun t => (Err e, t).
Definition emit (ev : Event) : M unit := fun t => (Ok tt, ev :: t).
Definition bind {A B} (m : M A) (k : A -> M B) : M B :=
  fun t => match m t with
           | (Ok a, t') => k a t'
           | (Err e, t') => (Err e, t')
           end.
Definition lift {A} (r : result A) : M A := fun t => (r, t).

Notation "x <- m ;; k" := (bind m (fun x => k))
  (at level 61, m at next level, right associativity).

(** [for i := 0; i < n; i++]: the values of [i]. *)
Definition range (n : Z) : list Z := map Z.of_nat (seq 0 (Z.to_nat n)).

(** [for i := lo; i < hi; i++]: the values of [i]. *)
Definition range_from (lo hi : Z) : list Z :=
  map (fun k => wrap64 (lo + k)) (range (hi - lo)).

(** A loop whose body updates [s] and may return an error from the
    enclosing function. *)
Fixpoint for_each {S} (idx : list Z) (body : Z -> S -> M S) (s : S) : M S :=
  match idx with
  | [] => ret s
  | i :: rest => s' <- body i s ;; for_each rest body s'
  end.

(** ** Package resizer *)

Module resizer.

Record Config : Type := {
  TargetWidth : Z;
  TargetHeight : Z;
  Quality : Z
}.

Record Resizer : Type := { config : Config }.

Definition NewResizer (cfg : Config) : result Resizer :=
  match ValidateDimensions (TargetWidth cfg) (TargetHeight cfg) with
  | Err e => Err (Wrapped InvalidConfig e)
  | Ok _ =>
      let cfg :=
        if (Quality cfg <? 0) || (Quality cfg >? 100)
        then {| TargetWidth := TargetWidth cfg;
                TargetHeight := TargetHeight cfg;
                Quality := 100 |}
        else cfg in
      Ok {| config := cfg |}
  end.

Section WithFloat.
Context {F : Type} `{Float64Ops F}.
Local Open Scope f64_scope.

(** A kernel window before it is filled: Go zeroes the array. *)
Definition zero_pixels : Pixels (F:=F) := fun _ _ => f_const 0%Q.

(** [pixels[kernelY][kernelX] = v] *)
Definition store (pixels : Pixels (F:=F)) (kernelY kernelX : Z) (v : F)
  : Pixels (F:=F) :=
  fun j i => if (j =? kernelY)%Z && (i =? kernelX)%Z then v else pixels j i.

(** The inner gathering loop: [srcX] runs over [xs], [kernelX] counts. *)
Fixpoint gather_row (src : Image) (conv : RGBA32 -> F) (width : Z)
    (safeY kernelY : Z) (xs : list Z) (kernelX : Z) (pixels : Pixels (F:=F))
  : Pixels (F:=F) :=
  match xs with
  | [] => pixels
  | srcX :: rest =>
      let safeX := GetSafeIndex srcX width in
      let c := At src safeX safeY in
      gather_row src conv width safeY kernelY rest (kernelX + 1)
                 (store pixels kernelY kernelX (conv c))
  end.

(** The outer gathering loop: [srcY] runs over [ys], [kernelY] counts. *)
Fixpoint gather_rows (src : Image) (conv : RGBA32 -> F) (width height : Z)
    (xs ys : list Z) (kernelY : Z) (pixels : Pixels (F:=F))
  : Pixels (F:=F) :=
  match ys with
  | [] => pixels
  | srcY :: rest =>
      let safeY := GetSafeIndex srcY height in
      gather_rows src conv width height xs rest (kernelY + 1)
                  (gather_row src conv width safeY kernelY xs 0 pixels)
  end.

(** The two nested loops that fill one kernel window of one channel. *)
Definition gather (src : Image) (conv : RGBA32 -> F) (width height : Z)
    (startX endX startY endY : Z) : Pixels (F:=F) :=
  gather_rows src conv width height
              (range_from startX endX) (range_from startY endY) 0 zero_pixels.

(** The start of the four sample functions: the bounds on both axes and
    the fractional parts. *)
Definition kernel_frame (x y : F) (width height : Z)
  : result (Z * Z * Z * Z * F * F) :=
  match CalculateKernelBounds x width with
  | Err e => Err e
  | Ok (startX, endX) =>
  match CalculateKernelBounds y height with
  | Err e => Err e
  | Ok (startY, endY) =>
      let dx := x - f_of_int (f_to_int x) in
      let dy := y - f_of_int (f_to_int y) in
      Ok (startX, endX, startY, endY, dx, dy)
  end end.

Definition shr8 (v : Z) : Z := Z.shiftr v 8.

Definition sampleRGBA (src : Image) (x y : F) (width height : Z)
  : result (Z * Z * Z * Z) :=
  match kernel_frame x y width height with
  | Err e => Err e
  | Ok (startX, endX, startY, endY, dx, dy) =>
    let win conv := gather src conv width height startX endX startY endY in
    let rPixels := win (fun c => f_of_int (shr8 (r32 c))) in
    let gPixels := win (fun c => f_of_int (shr8 (g32 c))) in
    let bPixels := win (fun c => f_of_int (shr8 (b32 c))) in
    let aPixels := win (fun c => f_of_int (shr8 (a32 c))) in
    match InterpolateBicubic rPixels dx dy with
    | Err e => Err e
    | Ok rVal =>
    match InterpolateBicubic gPixels dx dy with
    | Err e => Err e
    | Ok gVal =>
    match InterpolateBicubic bPixels dx dy with
    | Err e => Err e
    | Ok bVal =>
    match InterpolateBicubic aPixels dx dy with
    | Err e => Err e
    | Ok aVal =>
        Ok (ClampUint8 rVal, ClampUint8 gVal, ClampUint8 bVal, ClampUint8 aVal)
    end end end end
  end.

Definition sampleRGBA64 (src : Image) (x y : F) (width height : Z)
  : result (Z * Z * Z * Z) :=
  match kernel_frame x y width height with
  | Err e => Err e
  | Ok (startX, endX, startY, endY, dx, dy) =>
    let win conv := gather src conv width height startX endX startY endY in
    let rPixels := win (fun c => f_of_int (r32 c)) in
    let gPixels := win (fun c => f_of_int (g32 c)) in
    let bPixels := win (fun c => f_of_int (b32 c)) in
    let aPixels := win (fun c => f_of_int (a32 c)) in
    match InterpolateBicubic rPixels dx dy with
    | Err e => Err e
    | Ok rVal =>
    match InterpolateBicubic gPixels dx dy with
    | Err e => Err e
    | Ok gVal =>
    match InterpolateBicubic bPixels dx dy with
    | Err e => Err e
    | Ok bVal =>
    match InterpolateBicubic aPixels dx dy with
    | Err e => Err e
    | Ok aVal =>
        Ok (ClampUint16 rVal, ClampUint16 gVal,
            ClampUint16 bVal, ClampUint16 aVal)
    end end end end
  end.

Definition sampleGray (src : Image) (x y : F) (width height : Z)
  : result Z :=
  match kernel_frame x y width height with
  | Err e => Err e
  | Ok (startX, endX, startY, endY, dx, dy) =>
    let pixels := gather src (fun c => f_of_int (shr8 (r32 c)))
                         width height startX endX startY endY in
    match InterpolateBicubic pixels dx dy with
    | Err e => Err e
    | Ok val => Ok (ClampUint8 val)
    end
  end.

Definition sampleGray16 (src : Image) (x y : F) (width height : Z)
  : result Z :=
  match kernel_frame x y width height with
  | Err e => Err e
  | Ok (startX, endX, startY, endY, dx, dy) =>
    let pixels := gather src (fun c => f_of_int (r32 c))
                         width height startX endX startY endY in
    match InterpolateBicubic pixels dx dy with
    | Err e => Err e
    | Ok val => Ok (ClampUint16 val)
    end
  end.

(** The body shared by the four resize functions: validate the target,
    allocate, then scan the destination row by row; [sample] is the
    function's own sampler, giving the channels of one pixel. *)
Definition scan (k : Kind) (sample : F -> F -> result (list Z))
    (r : Resizer) (srcWidth srcHeight : Z) : M Buffer :=
  let tw := TargetWidth (config r) in
  let th := TargetHeight (config r) in
  _ <- lift (ValidateDimensions tw th) ;;
  _ <- emit (EvAlloc k tw th) ;;
  let dst := NewBuffer k (Rect0 tw th) in
  let xRatio := f_of_int srcWidth / f_of_int tw in
  let yRatio := f_of_int srcHeight / f_of_int th in
  for_each (range th) (fun y dst =>
    let srcY := (f_of_int y + f_const (1 # 2)%Q) * yRatio in
    for_each (range tw) (fun x dst =>
      let srcX := (f_of_int x + f_const (1 # 2)%Q) * xRatio in
      _ <- emit (EvSample x y) ;;
      match sample srcX srcY with
      | Err e => fail (Wrapped (SamplingFailedAt x y) e)
      | Ok px =>
          _ <- emit (EvSet x y) ;;
          ret (SetPixel dst x y px)
      end) dst) dst.

Definition quad (r : result (Z * Z * Z * Z)) : result (list Z) :=
  match r with
  | Err e => Err e
  | Ok (r, g, b, a) => Ok [r; g; b; a]
  end.

Definition single (r : result Z) : result (list Z) :=
  match r with
  | Err e => Err e
  | Ok y => Ok [y]
  end.

Definition resizeRGBA (r : Resizer) (src : Image) (srcWidth srcHeight : Z)
  : M Buffer :=
  scan KRGBA (fun x y => quad (sampleRGBA src x y srcWidth srcHeight))
       r srcWidth srcHeight.

Definition resizeRGBA64 (r : Resizer) (src : Image) (srcWidth srcHeight : Z)
  : M Buffer :=
  scan KRGBA64 (fun x y => quad (sampleRGBA64 src x y srcWidth srcHeight))
       r srcWidth srcHeight.

Definition resizeGray (r : Resizer) (src : Image) (srcWidth srcHeight : Z)
  : M Buffer :=
  scan KGray (fun x y => single (sampleGray src x y srcWidth srcHeight))
       r srcWidth srcHeight.

Definition resizeGray16 (r : Resizer) (src : Image) (srcWidth srcHeight : Z)
  : M Buffer :=
  scan KGray16 (fun x y => single (sampleGray16 src x y srcWidth srcHeight))
       r srcWidth srcHeight.

(** What a Go function returning [(image.Image, error)] hands back. *)
Definition Returned : Type := (ImageValue * option Error)%type.

(** [return r.resizeX(...)]: the pointer the path returns, nil on an
    error, is put into the interface as it is. *)
Definition as_image (k : Kind) (m : M Buffer) : Trace -> Returned * Trace :=
  fun t => match m t with
           | (Ok dst, t') => ((Pointer k (Some dst), None), t')
           | (Err e, t') => ((Pointer k None, Some e), t')
           end.

Definition Resize (r : Resizer) (src : option Image)
  : Trace -> Returned * Trace :=
  fun t =>
  match src with
  | None => ((NilInterface, Some (Plain ErrNilImage)), t)
  | Some src =>
    let bounds := Bounds src in
    let srcWidth := Dx bounds in
    let srcHeight := Dy bounds in
    match ValidateDimensions srcWidth srcHeight with
    | Err e => ((NilInterface, Some (Wrapped InvalidSourceDimensions e)), t)
    | Ok _ =>
    match ValidateResizeRatio srcWidth srcHeight
            (TargetWidth (config r)) (TargetHeight (config r)) with
    | Err e => ((NilInterface, Some (Wrapped InvalidResizeRatio e)), t)
    | Ok _ =>
      match Model src with
      | RGBAModel | NRGBAModel =>
          as_image KRGBA (resizeRGBA r src srcWidth srcHeight) t
      | RGBA64Model | NRGBA64Model =>
          as_image KRGBA64 (resizeRGBA64 r src srcWidth srcHeight) t
      | GrayModel =>
          as_image KGray (resizeGray r src srcWidth srcHeight) t
      | Gray16Model =>
          as_image KGray16 (resizeGray16 r src srcWidth srcHeight) t
      | OtherModel =>
          as_image KRGBA (resizeRGBA r src srcWidth srcHeight) t
      end
    end end
  end.

End WithFloat.
End resizer.

Import resizer.

(** ** Test images *)

(** What [color.Gray{Y: v}.RGBA()] returns. *)
Definition gray_rgba (v : Z) : RGBA32 :=
  let y := Z.lor (Z.shiftl v 8) v in
  {| r32 := y; g32 := y; b32 := y; a32 := 65535 |}.

(** A [w] by [h] 8-bit grayscale image with every pixel at [v]. *)
Definition solid_gray (w h v : Z) : Image :=
  {| Bounds := Rect0 w h; Model := GrayModel; At := fun _ _ => gray_rgba v |}.

(** ** Vocabulary of the statements *)

(** A width or a height in the accepted range. *)
Definition dimension_ok (n : Z) : Prop := 1 <= n <= 65535.

(** The scale factor [target / source] lies between 1/16 and 16. *)
Definition ratio_ok (target source : Z) : Prop :=
  ((1 # 16) <= inject_Z target / inject_Z source)%Q /\
  (inject_Z target / inject_Z source <= 16)%Q.

(** A valid request: the four dimensions and the two scale factors. *)
Definition valid_request (srcW srcH dstW dstH : Z) : Prop :=
  dimension_ok srcW /\ dimension_ok srcH /\
  dimension_ok dstW /\ dimension_ok dstH /\
  ratio_ok dstW srcW /\ ratio_ok dstH srcH.



(** The two pieces as polynomials in the distance. *)
Definition inner_poly (t : Q) : Q :=
  ((7 # 6) * t * t * t - 2 * t * t + (8 # 9))%Q.

Definition outer_poly (t : Q) : Q :=
  (- (7 # 18) * t * t * t + 2 * t * t - (10 # 3) * t + (16 # 9))%Q.

(** What [SetPixel] never changes. *)
Definition same_frame (a b : Buffer) : Prop :=
  kind b = kind a /\ Rect b = Rect a /\ length (Pix b) = length (Pix a).

(** What a sampler can fail with. *)
Definition sampling_error (e : Error) : Prop :=
  e = Plain ErrInvalidCoordinate \/ e = Plain ErrInvalidChannel.

(** The kind of buffer [Resize] returns for each colour model. *)
Definition kind_of_model (m : ColorModel) : Kind :=
  match m with
  | RGBAModel | NRGBAModel | OtherModel => KRGBA
  | RGBA64Model | NRGBA64Model => KRGBA64
  | GrayModel => KGray
  | Gray16Model => KGray16
  end.

(** What [NewResizer] does with the quality: a value from 0 to 100 is kept,
    any other becomes 100. *)
Definition normal_quality (q : Z) : Z :=
  if (q <? 0) || (q >? 100) then 100 else q.

(** The inputs of the scenarios. *)
Definition gray_4x4 : Image := solid_gray 4 4 128.

(** The destination of the scenario: 8 by 8, every pixel at 128. *)
Definition gray_8x8 : Buffer :=
  {| kind := KGray; Rect := Rect0 8 8; Pix := repeat [128] 64 |}.

Definition to_8x8 : Resizer :=
  {| config := {| TargetWidth := 8; TargetHeight := 8; Quality := 100 |} |}.

Definition src_10x10 : Image :=
  {| Bounds := Rect0 10 10; Model := RGBAModel;
     At := fun _ _ => {| r32 := 65535; g32 := 0; b32 := 0; a32 := 65535 |} |}.

Definition to_170x170 : Resizer :=
  {| config := {| TargetWidth := 170; TargetHeight := 170; Quality := 100 |} |}.

Definition cfg_q50 : Config :=
  {| TargetWidth := 8; TargetHeight := 8; Quality := 50 |}.

Definition cfg_q999 : Config :=
  {| TargetWidth := 8; TargetHeight := 8; Quality := 999 |}.

(* ================================================================== *)
(** ** Vocabulary of the further properties *)


(** The events of one destination pixel, of one row and of a whole scan,
    in the order they happen. *)
Definition pixel_events (y x : Z) : list Event := [EvSample x y; EvSet x y].

Definition row_events (tw y : Z) : list Event :=
  flat_map (pixel_events y) (range tw).

Definition scan_events (k : Kind) (tw th : Z) : list Event :=
  EvAlloc k tw th :: flat_map (row_events tw) (range th).

(** The place of the point (x, y) in a buffer [tw] wide. *)
Definition pixel_index (tw x y : Z) : nat := Z.to_nat (y * tw + x).

(** The first [count] pixels of a buffer, row by row, hold what [value]
    says. *)
Definition filled (tw : Z) (value : Z -> Z -> list Z -> Prop)
    (count : Z) (s : Buffer) : Prop :=
  forall x y, 0 <= x < tw -> 0 <= y -> y * tw + x < count ->
    exists px, value x y px /\ nth_error (Pix s) (pixel_index tw x y) = Some px.

(** The largest channel value of a kind of buffer. *)
Definition channel_max (k : Kind) : Z :=
  match k with KRGBA | KGray => 255 | KRGBA64 | KGray16 => 65535 end.

(** A pixel with the channels of its kind, each within the depth. *)
Definition pixel_ok (k : Kind) (px : list Z) : Prop :=
  length px = channels k /\ Forall (fun c => 0 <= c <= channel_max k) px.

(** Two sources that agree on the points of [0, width) x [0, height). *)
Definition same_pixels (width height : Z) (a b : Image) : Prop :=
  forall x y, 0 <= x < width -> 0 <= y < height -> At a x y = At b x y.

(** A source that shows the same 4 by 4 gray pixels at the origin as
    [gray_4x4], under bounds that start at (10, 10), and other pixels
    elsewhere. *)
Definition gray_4x4_shifted : Image :=
  {| Bounds := {| MinX := 10; MinY := 10; MaxX := 14; MaxY := 14 |};
     Model := GrayModel;
     At := fun x y =>
             if In_rect x y (Rect0 4 4) then gray_rgba 128 else gray_rgba 7 |}.




Section VocabularyAnyFloat.
Context {F : Type} `{Float64Ops F}.

(** The center of the destination index [n] on an axis, as the loops of
    the four resize functions compute it. *)
Definition source_center (n size target : Z) : F :=
  f_mul (f_add (f_of_int n) (f_const (1 # 2)))
        (f_div (f_of_int size) (f_of_int target)).

(** The sampler of the path [Resize] takes for a colour model, giving the
    channels of one destination pixel. *)
Definition sampler (m : ColorModel) (src : Image) (x y : F)
    (width height : Z) : result (list Z) :=
  match kind_of_model m with
  | KRGBA => quad (sampleRGBA src x y width height)
  | KRGBA64 => quad (sampleRGBA64 src x y width height)
  | KGray => single (sampleGray src x y width height)
  | KGray16 => single (sampleGray16 src x y width height)
  end.

(** Two windows with the same entries. *)
Definition same_window (p q : Pixels (F:=F)) : Prop :=
  forall j i, p j i = q j i.

End VocabularyAnyFloat.

(** The three kinds of error of [Resize]: for a nil source; for a refused
    request; from a sampler, at one destination pixel. *)
Definition error_kind {F : Type} `{Float64Ops F} (r : Resizer)
    (src : option Image) (t t' : Trace) (img : ImageValue) (e : Error)
  : Prop :=
  (src = None /\ e = Plain ErrNilImage /\ img = NilInterface /\ t' = t) \/
  (exists s, src = Some s /\ root e = ErrInvalidDimension /\
             img = NilInterface /\ t' = t) \/
  (exists s x y e0,
      src = Some s /\
      0 <= x < TargetWidth (config r) /\ 0 <= y < TargetHeight (config r) /\
      e = Wrapped (SamplingFailedAt x y) e0 /\ sampling_error e0 /\
      sampler (Model s) s
        (source_center x (Dx (Bounds s)) (TargetWidth (config r)))
        (source_center y (Dy (Bounds s)) (TargetHeight (config r)))
        (Dx (Bounds s)) (Dy (Bounds s)) = Err e0 /\
      img = Pointer (kind_of_model (Model s)) None).

(** * The files and the command *)

(** The rest of the repository: the path check of [validator], package
    [imageio] and the command ([main.go]). They reach the operating system
    and the codecs of the Go libraries, which are no part of the
    repository: these are operations of an interface ([System]), and
    everything below holds for every implementation of it. *)

(** What a Go call ends with: it returns a value, it returns an error, or
    it panics. *)
Inductive answer (E A : Type) : Type :=
| Success (a : A)
| Failure (e : E)
| Panicked.
Arguments Success {E A} a.
Arguments Failure {E A} e.
Arguments Panicked {E A}.

(** ** Package validator: paths *)

Definition MaxFileSize : Z := 1073741824.

(** The two messages [ValidatePath] puts after [ErrInvalidPath]. *)
Inductive PathError : Type :=
| PathCannotBeEmpty
| PathExceedsMaximumLength.

Definition maxPathLength : Z := 4096.

(** A path is a Go string: bytes, and [len] counts them. The result is the
    error, [None] for nil. *)
Definition ValidatePath (path : String.string) : option PathError :=
  if String.eqb path String.EmptyString then Some PathCannotBeEmpty
  else if Z.of_nat (String.length path) >? maxPathLength
  then Some PathExceedsMaximumLength
  else None.

(** ** The operating system and the codecs *)

Inductive Format : Type := JPEG | PNG | BMP | TIFF | WEBP.

(** The calls the two packages make outside the repository, on a state of
    the world that each of them may read and change. An error of the
    outside is its text. [extension] is
    [strings.ToLower(filepath.Ext(path))], [directory] is
    [filepath.Dir(path)]; [encode] has the options [SaveImage] gives each
    format (JPEG quality 95, the default PNG compression, TIFF deflate). *)
Class System (World File : Type) : Type := {
  os_Open : String.string -> World -> answer String.string File * World;
  file_Stat_Size : File -> World -> answer String.string Z;
  file_Close : File -> World -> World;
  os_MkdirAll : String.string -> World -> answer String.string unit * World;
  os_Create : String.string -> World -> answer String.string File * World;
  extension : String.string -> String.string;
  directory : String.string -> String.string;
  decode : Format -> File -> World
           -> answer String.string (option Image) * World;
  encode : Format -> File -> ImageValue -> World
           -> answer String.string unit * World
}.

(** ** Package imageio *)

Module imageio.
Import String.
Local Open Scope string_scope.

Inductive Sentinel : Type :=
| ErrUnsupportedFormat
| ErrFileOpen
| ErrFileCreate
| ErrDecode
| ErrEncode.

(** What a [fmt.Errorf("%w: ...", sentinel, ...)] puts after the sentinel:
    the text of another error ([%v], which does not wrap it) or a fixed
    message. *)
Inductive Detail : Type :=
| OfPath (e : PathError)
| OfSystem (text : string)
| CannotStatFile (text : string)
| FileTooLarge
| UnsupportedExtension (ext : string)
| DecodedImageIsNil
| ImageIsNil
| InvalidDimensions (e : Error)
| CannotCreateDirectory (text : string).

(** An error of the package: the sentinel it wraps and the rest of the
    message. *)
Inductive IOError : Type :=
| Errorf (s : Sentinel) (d : Detail).

Definition sentinel (e : IOError) : Sentinel :=
  match e with Errorf s _ => s end.

Definition SupportedFormats : list string :=
  [".jpg"; ".jpeg"; ".png"; ".bmp"; ".tiff"; ".tif"; ".webp"].

Definition webp : string := ".webp".

(** The [switch ext] of [LoadImage]: the decoder of an extension. *)
Definition decoder_of (ext : string) : option Format :=
  if (ext =? ".jpg") || (ext =? ".jpeg") then Some JPEG
  else if ext =? ".png" then Some PNG
  else if ext =? ".bmp" then Some BMP
  else if (ext =? ".tiff") || (ext =? ".tif") then Some TIFF
  else if ext =? ".webp" then Some WEBP
  else None.

(** The [switch ext] of [SaveImage]: the encoder of an extension. *)
Definition encoder_of (ext : string) : option Format :=
  if (ext =? ".jpg") || (ext =? ".jpeg") then Some JPEG
  else if ext =? ".png" then Some PNG
  else if ext =? ".bmp" then Some BMP
  else if (ext =? ".tiff") || (ext =? ".tif") then Some TIFF
  else None.

Section WithSystem.
Context {World File : Type} `{System World File}.

(** [defer file.Close()]: the file is closed when the function is left,
    by a return or by a panic; an error of the closing is dropped. *)
Definition closing {A} (file : File) (m : World -> answer IOError A * World)
  : World -> answer IOError A * World :=
  fun w => let (a, w') := m w in (a, file_Close file w').

Definition LoadImage (path : string)
  : World -> answer IOError (option Image) * World :=
  fun w =>
  match ValidatePath path with
  | Some e => (Failure (Errorf ErrFileOpen (OfPath e)), w)
  | None =>
  match os_Open path w with
  | (Panicked, w) => (Panicked, w)
  | (Failure text, w) => (Failure (Errorf ErrFileOpen (OfSystem text)), w)
  | (Success file, w) =>
    closing file (fun w =>
      match file_Stat_Size file w with
      | Panicked => (Panicked, w)
      | Failure text => (Failure (Errorf ErrFileOpen (CannotStatFile text)), w)
      | Success size =>
        if (size >? MaxFileSize)%Z
        then (Failure (Errorf ErrFileOpen FileTooLarge), w)
        else
          let ext := extension path in
          match decoder_of ext with
          | None => (Failure (Errorf ErrUnsupportedFormat
                                (UnsupportedExtension ext)), w)
          | Some format =>
            match decode format file w with
            | (Panicked, w) => (Panicked, w)
            | (Failure text, w) =>
                (Failure (Errorf ErrDecode (OfSystem text)), w)
            | (Success None, w) =>
                (Failure (Errorf ErrDecode DecodedImageIsNil), w)
            | (Success (Some img), w) => (Success (Some img), w)
            end
          end
      end) w
  end end.

(** For the images of the resizer: [img == nil] holds of the nil
    interface alone, and [img.Bounds()] panics on a nil pointer. *)
Definition SaveImage (path : string) (img : ImageValue)
  : World -> answer IOError unit * World :=
  fun w =>
  match ValidatePath path with
  | Some e => (Failure (Errorf ErrFileCreate (OfPath e)), w)
  | None =>
  match img with
  | NilInterface => (Failure (Errorf ErrFileCreate ImageIsNil), w)
  | Pointer _ None => (Panicked, w)
  | Pointer _ (Some buf) =>
  let bounds := Rect buf in
  match ValidateDimensions (Dx bounds) (Dy bounds) with
  | Err e => (Failure (Errorf ErrFileCreate (InvalidDimensions e)), w)
  | Ok _ =>
  let dir := directory path in
  match os_MkdirAll dir w with
  | (Panicked, w) => (Panicked, w)
  | (Failure text, w) =>
      (Failure (Errorf ErrFileCreate (CannotCreateDirectory text)), w)
  | (Success _, w) =>
  match os_Create path w with
  | (Panicked, w) => (Panicked, w)
  | (Failure text, w) => (Failure (Errorf ErrFileCreate (OfSystem text)), w)
  | (Success file, w) =>
    closing file (fun w =>
      let ext := extension path in
      match encoder_of ext with
      | None => (Failure (Errorf ErrUnsupportedFormat
                            (UnsupportedExtension ext)), w)
      | Some format =>
        match encode format file img w with
        | (Panicked, w) => (Panicked, w)
        | (Failure text, w) => (Failure (Errorf ErrEncode (OfSystem text)), w)
        | (Success _, w) => (Success tt, w)
        end
      end) w
  end end end end end.

(** The loop of [GetImageFormat] over [SupportedFormats]. *)
Fixpoint supported (ext : string) (formats : list string) : bool :=
  match formats with
  | [] => false
  | f :: rest => if ext =? f then true else supported ext rest
  end.

(** [GetImageFormat] returns [validator]'s error as it is for a path that
    [ValidatePath] refuses, and its own for an extension off the list. *)
Definition GetImageFormat (path : string)
  : answer (PathError + IOError) string :=
  match ValidatePath path with
  | Some e => Failure (inl e)
  | None =>
    let ext := extension path in
    if supported ext SupportedFormats
    then Success ext
    else Failure (inr (Errorf ErrUnsupportedFormat (UnsupportedExtension ext)))
  end.

End WithSystem.
End imageio.

(** ** The command *)

Module main.
Import String.
Local Open Scope string_scope.

Definition ExitSuccess : Z := 0.
Definition ExitError : Z := 1.

(** The configuration of the command, as [flag.Parse] fills it. *)
Record Config : Type := {
  InputPath : string;
  OutputPath : string;
  Width : Z;
  Height : Z;
  ShowHelp : bool;
  ShowVer : bool
}.

(** The errors of the command: each is a message, some of them wrap the
    error of a package. *)
Inductive CliError : Type :=
| InputPathIsRequired
| OutputPathIsRequired
| WidthMustBeGreaterThan0
| HeightMustBeGreaterThan0
| InvalidInputPath (e : PathError)
| InvalidOutputPath (e : PathError)
| InvalidDimensions (e : Error)
| ConfigurationIsNil
| FailedToLoadImage (e : imageio.IOError)
| LoadedImageIsNil
| InvalidResizeParameters (e : Error)
| FailedToCreateResizer (e : Error)
| ResizeFailed (e : Error)
| ResizedImageIsNil
| OutputDimensionsMismatch (gotW gotH wantW wantH : Z)
| FailedToSaveImage (e : imageio.IOError).

(** What the command prints: the lines of [run] on the standard output, the
    line of an error on the standard error, the help and the version. *)
Inductive Line : Type :=
| LoadingImage (path : string)
| SourceDimensions (w h : Z)
| TargetDimensions (w h : Z)
| ResizingImage
| SavingImage (path : string)
| ResizeCompleted
| ErrorLine (e : CliError)
| HelpText
| VersionText.

(** The checks of [parseFlags], on the configuration [flag.Parse] left. *)
Definition parseFlags (cfg : Config) : answer CliError Config :=
  if ShowHelp cfg then Success cfg
  else if ShowVer cfg then Success cfg
  else if InputPath cfg =? EmptyString then Failure InputPathIsRequired
  else if OutputPath cfg =? EmptyString then Failure OutputPathIsRequired
  else if (Width cfg <=? 0)%Z then Failure WidthMustBeGreaterThan0
  else if (Height cfg <=? 0)%Z then Failure HeightMustBeGreaterThan0
  else
  match ValidatePath (InputPath cfg) with
  | Some e => Failure (InvalidInputPath e)
  | None =>
  match ValidatePath (OutputPath cfg) with
  | Some e => Failure (InvalidOutputPath e)
  | None =>
  match ValidateDimensions (Width cfg) (Height cfg) with
  | Err e => Failure (InvalidDimensions e)
  | Ok _ => Success cfg
  end end end.

Section WithSystem.
Context {F : Type} `{Float64Ops F}.
Context {World File : Type} `{System World File}.

(** The state of a run: the world outside and the lines printed so far,
    the most recent first. *)
Definition State : Type := (World * list Line)%type.

Definition Cmd (A : Type) : Type := State -> answer CliError A * State.

Definition say (l : Line) : Cmd unit :=
  fun s => (Success tt, (fst s, l :: snd s)).

Definition stop {A} (e : CliError) : Cmd A := fun s => (Failure e, s).

Definition done : Cmd unit := fun s => (Success tt, s).

Definition and_then {A B} (m : Cmd A) (k : A -> Cmd B) : Cmd B :=
  fun s => match m s with
           | (Success a, s') => k a s'
           | (Failure e, s') => (Failure e, s')
           | (Panicked, s') => (Panicked, s')
           end.

(** A call into [imageio], its error wrapped with a message of [run]. *)
Definition calling {A} (message : imageio.IOError -> CliError)
    (call : World -> answer imageio.IOError A * World) : Cmd A :=
  fun s => match call (fst s) with
           | (Success a, w) => (Success a, (w, snd s))
           | (Failure e, w) => (Failure (message e), (w, snd s))
           | (Panicked, w) => (Panicked, (w, snd s))
           end.

Definition panic {A} : Cmd A := fun s => (Panicked, s).

Notation "x <~ m ;; k" := (and_then m (fun x => k))
  (at level 61, m at next level, right associativity).

(** [run]. The resizer [NewResizer] returns without an error is the address
    of a fresh value: the test [r == nil] after it has nothing to refuse.
    [resizedImg.Bounds()] panics on a nil pointer. *)
Definition run (cfg : option Config) : Cmd unit :=
  match cfg with
  | None => stop ConfigurationIsNil
  | Some cfg =>
    _ <~ say (LoadingImage (InputPath cfg)) ;;
    img <~ calling FailedToLoadImage (imageio.LoadImage (InputPath cfg)) ;;
    match img with
    | None => stop LoadedImageIsNil
    | Some img =>
    let bounds := Bounds img in
    let srcWidth := Dx bounds in
    let srcHeight := Dy bounds in
    _ <~ say (SourceDimensions srcWidth srcHeight) ;;
    _ <~ say (TargetDimensions (Width cfg) (Height cfg)) ;;
    match ValidateResizeRatio srcWidth srcHeight (Width cfg) (Height cfg) with
    | Err e => stop (InvalidResizeParameters e)
    | Ok _ =>
    let resizerCfg := {| TargetWidth := Width cfg;
                         TargetHeight := Height cfg;
                         Quality := 100 |} in
    match NewResizer resizerCfg with
    | Err e => stop (FailedToCreateResizer e)
    | Ok r =>
    _ <~ say ResizingImage ;;
    match fst (Resize r (Some img) []) with
    | (_, Some e) => stop (ResizeFailed e)
    | (NilInterface, None) => stop ResizedImageIsNil
    | (Pointer _ None, None) => panic
    | (Pointer k (Some dst) as resizedImg, None) =>
      let outBounds := Rect dst in
      if negb (Dx outBounds =? Width cfg)%Z
         || negb (Dy outBounds =? Height cfg)%Z
      then stop (OutputDimensionsMismatch (Dx outBounds) (Dy outBounds)
                   (Width cfg) (Height cfg))
      else
        _ <~ say (SavingImage (OutputPath cfg)) ;;
        _ <~ calling FailedToSaveImage
               (imageio.SaveImage (OutputPath cfg) resizedImg) ;;
        say ResizeCompleted
    end end end end
  end.

(** [main], from the configuration [flag.Parse] left to the exit code;
    [None] when the run panicked. *)
Definition main (parsed : Config) : State -> option Z * State :=
  fun s =>
  match parseFlags parsed with
  | Failure e =>
      (Some ExitError, (fst s, HelpText :: ErrorLine e :: snd s))
  | Panicked => (None, s)
  | Success cfg =>
    if ShowHelp cfg then (Some ExitSuccess, (fst s, HelpText :: snd s))
    else if ShowVer cfg then (Some ExitSuccess, (fst s, VersionText :: snd s))
    else
      match run (Some cfg) s with
      | (Failure e, s') => (Some ExitError, (fst s', ErrorLine e :: snd s'))
      | (Success _, s') => (Some ExitSuccess, s')
      | (Panicked, s') => (None, s')
      end
  end.

End WithSystem.
End main.

(** ** A system for the scenarios *)

Module scenario.
Import Ascii String.
Local Open Scope string_scope.

(** The part of a path from its last dot on. *)
Fixpoint suffix (path : string) : option string :=
  match path with
  | EmptyString => None
  | String ch rest =>
      match suffix rest with
      | Some ext => Some ext
      | None => if Ascii.eqb ch "."%char then Some path else None
      end
  end.

(** The files written so far, the most recent first: the path, the format
    and the image. *)
Definition Disk : Type := list (string * option Format * ImageValue).

(** A world where every file opens, is 1000 bytes long and decodes to the
    4 by 4 gray image, and where a file is created empty and filled by the
    encoder. *)
Definition memory : System Disk string := {|
  os_Open := fun path w => (Success path, w);
  file_Stat_Size := fun _ _ => Success 1000;
  file_Close := fun _ w => w;
  os_MkdirAll := fun _ w => (Success tt, w);
  os_Create := fun path w => (Success path, (path, None, NilInterface) :: w);
  extension := fun path =>
    match suffix path with Some ext => ext | None => EmptyString end;
  directory := fun _ => ".";
  decode := fun _ _ w => (Success (Some gray_4x4), w);
  encode := fun format file img w =>
    (Success tt, (file, Some format, img) :: tl w)
|}.

Definition in_png : string := "in.png".
Definition out_png : string := "out.png".
Definition out_webp : string := "out.webp".

Definition request : main.Config := {|
  main.InputPath := in_png;
  main.OutputPath := out_png;
  main.Width := 8;
  main.Height := 8;
  main.ShowHelp := false;
  main.ShowVer := false
|}.

(** The flags [-help -w 0]. *)
Definition help_request : main.Config := {|
  main.InputPath := EmptyString;
  main.OutputPath := EmptyString;
  main.Width := 0;
  main.Height := 0;
  main.ShowHelp := true;
  main.ShowVer := false
|}.

(** The flags [-i in.png -o out.png -w 8 -h 70000]. *)
Definition tall_request : main.Config := {|
  main.InputPath := in_png;
  main.OutputPath := out_png;
  main.Width := 8;
  main.Height := 70000;
  main.ShowHelp := false;
  main.ShowVer := false
|}.

End scenario.

(** ** Vocabulary of the command *)

Section RunPaths.
Context {F : Type} `{Float64Ops F}.
Context {World File : Type} `{System World File}.

(** The resizer [run] makes for a configuration. *)
Definition resizer_of (cfg : main.Config) : Resizer :=
  {| config := {| TargetWidth := main.Width cfg;
                  TargetHeight := main.Height cfg;
                  Quality := 100 |} |}.

(** The lines [run] has printed, the most recent first, when it loads,
    when it resizes and when it saves. *)
Definition lines_at_load (cfg : main.Config) (before : list main.Line)
  : list main.Line :=
  main.LoadingImage (main.InputPath cfg) :: before.

Definition lines_at_check (cfg : main.Config) (img : Image)
    (before : list main.Line) : list main.Line :=
  main.TargetDimensions (main.Width cfg) (main.Height cfg)
  :: main.SourceDimensions (Dx (Bounds img)) (Dy (Bounds img))
  :: lines_at_load cfg before.

Definition lines_at_save (cfg : main.Config) (img : Image)
    (before : list main.Line) : list main.Line :=
  main.SavingImage (main.OutputPath cfg)
  :: main.ResizingImage :: lines_at_check cfg img before.

(** The ways through [run]: one rule for each place where it can end, with
    what was done up to there. *)
Inductive run_path (cfg : main.Config) (s : main.State (World:=World))
  : answer main.CliError unit * main.State (World:=World) -> Prop :=
| load_panics (w : World) :
    imageio.LoadImage (main.InputPath cfg) (fst s) = (Panicked, w) ->
    run_path cfg s (Panicked, (w, lines_at_load cfg (snd s)))
| load_fails (e : imageio.IOError) (w : World) :
    imageio.LoadImage (main.InputPath cfg) (fst s) = (Failure e, w) ->
    run_path cfg s
      (Failure (main.FailedToLoadImage e), (w, lines_at_load cfg (snd s)))
| request_refused (img : Image) (w : World) (e : Error) :
    imageio.LoadImage (main.InputPath cfg) (fst s) = (Success (Some img), w) ->
    ValidateResizeRatio (Dx (Bounds img)) (Dy (Bounds img))
      (main.Width cfg) (main.Height cfg) = Err e ->
    run_path cfg s
      (Failure (main.InvalidResizeParameters e),
       (w, lines_at_check cfg img (snd s)))
| resize_fails (img : Image) (w : World) (out : ImageValue) (e : Error) :
    imageio.LoadImage (main.InputPath cfg) (fst s) = (Success (Some img), w) ->
    ValidateResizeRatio (Dx (Bounds img)) (Dy (Bounds img))
      (main.Width cfg) (main.Height cfg) = Ok tt ->
    fst (Resize (resizer_of cfg) (Some img) []) = (out, Some e) ->
    run_path cfg s
      (Failure (main.ResizeFailed e),
       (w, main.ResizingImage :: lines_at_check cfg img (snd s)))
| saving (img : Image) (w : World) (dst : Buffer) :
    imageio.LoadImage (main.InputPath cfg) (fst s) = (Success (Some img), w) ->
    ValidateResizeRatio (Dx (Bounds img)) (Dy (Bounds img))
      (main.Width cfg) (main.Height cfg) = Ok tt ->
    fst (Resize (resizer_of cfg) (Some img) [])
    = (Pointer (kind_of_model (Model img)) (Some dst), None) ->
    Rect dst = Rect0 (main.Width cfg) (main.Height cfg) ->
    run_path cfg s
      match imageio.SaveImage (main.OutputPath cfg)
              (Pointer (kind_of_model (Model img)) (Some dst)) w with
      | (Success _, w') =>
          (Success tt,
           (w', main.ResizeCompleted :: lines_at_save cfg img (snd s)))
      | (Failure e, w') =>
          (Failure (main.FailedToSaveImage e),
           (w', lines_at_save cfg img (snd s)))
      | (Panicked, w') => (Panicked, (w', lines_at_save cfg img (snd s)))
      end.

End RunPaths.

(** * Properties *)

(** ** Machine integers *)

Lemma wrap64_small (z : Z) : int64_range z -> wrap64 z = z.
Proof.
  unfold int64_range, min_int64, max_int64, wrap64. intros Hz.
  rewrite Z.mod_small; lia.
Qed.

Lemma wrapU_bound (bits z : Z) : 0 <= bits -> 0 <= wrapU bits z < 2 ^ bits.
Proof.
  intros Hb. unfold wrapU. apply Z.mod_pos_bound. now apply Z.pow_pos_nonneg.
Qed.

(** ** Comparisons of the exact instance *)

Lemma Qltb_lt (x y : Q) : Qltb x y = true <-> (x < y)%Q.
Proof.
  unfold Qltb. rewrite negb_true_iff, <- not_true_iff_false, Qle_bool_iff.
  split; [apply Qnot_le_lt | apply Qlt_not_le].
Qed.

Lemma Qltb_ge (x y : Q) : Qltb x y = false <-> (y <= x)%Q.
Proof.
  unfold Qltb. rewrite negb_false_iff. apply Qle_bool_iff.
Qed.

Lemma Qleb_gt (x y : Q) : Qle_bool x y = false <-> (y < x)%Q.
Proof.
  rewrite <- not_true_iff_false, Qle_bool_iff.
  split; [apply Qnot_le_lt | apply Qlt_not_le].
Qed.

(** Turns every test of the exact instance in the goal or the context into
    the order fact it decides. *)
Ltac q_tests :=
  repeat match goal with
  | H : Qltb _ _ = true |- _ => apply Qltb_lt in H
  | H : Qltb _ _ = false |- _ => apply Qltb_ge in H
  | H : Qle_bool _ _ = true |- _ => apply Qle_bool_iff in H
  | H : Qle_bool _ _ = false |- _ => apply Qleb_gt in H
  end.

(** ** [GetSafeIndex] *)

(** C7. For every integer index [i] and every positive size [n] (a Go int),
    [GetSafeIndex i n] is 0 when [i < 0], [n - 1] when [i >= n], and [i]
    itself when [0 <= i < n]. *)
Theorem GetSafeIndex_clamps (i n : Z) :
  int64_range n -> 0 < n ->
  (i < 0 -> GetSafeIndex i n = 0) /\
  (i >= n -> GetSafeIndex i n = n - 1) /\
  (0 <= i < n -> GetSafeIndex i n = i).
Proof.
  intros Hn Hpos. unfold GetSafeIndex.
  assert (Hw : wrap64 (n - 1) = n - 1).
  { apply wrap64_small. unfold int64_range, min_int64, max_int64 in *. lia. }
  rewrite Hw.
  destruct (Z.ltb_spec i 0); destruct (Z.geb_spec i n); repeat split; lia.
Qed.

Lemma GetSafeIndex_clamps_witness :
  GetSafeIndex (-3) 4 = 0 /\ GetSafeIndex 9 4 = 3 /\ GetSafeIndex 2 4 = 2.
Proof.
  assert (Hi : forall z, -10 <= z <= 10 -> int64_range z)
    by (unfold int64_range, min_int64, max_int64; lia).
  split; [| split].
  - apply (GetSafeIndex_clamps (-3) 4); try apply Hi; lia.
  - apply (GetSafeIndex_clamps 9 4); try apply Hi; lia.
  - apply (GetSafeIndex_clamps 2 4); try apply Hi; lia.
Defined.

(** ** [CalculateKernelBounds] *)

Lemma wrap64_sub_wrap (a d : Z) : wrap64 (wrap64 (a + d) - a) = wrap64 d.
Proof.
  unfold wrap64. f_equal.
  replace ((a + d + 2 ^ 63) mod 2 ^ 64 - 2 ^ 63 - a + 2 ^ 63)
    with ((a + d + 2 ^ 63) mod 2 ^ 64 - a) by ring.
  rewrite Zminus_mod_idemp_l. f_equal. ring.
Qed.

(** The second check of [CalculateKernelBounds] never fires: in 64-bit
    arithmetic [end - start] is [KernelSize] whatever [start] is. *)
Lemma span_is_KernelSize (start : Z) :
  (wrap64 (wrap64 (start + KernelSize) - start) =? KernelSize) = true.
Proof.
  rewrite wrap64_sub_wrap. reflexivity.
Qed.

Section AnyFloat.
Context {F : Type} `{Float64Ops F}.

(** On every instance the only failure is the first check. *)
Lemma CalculateKernelBounds_cases (center : F) (maxBound : Z) :
  CalculateKernelBounds center maxBound =
  if (f_ltb center (f_const 0%Q) || f_geb center (f_of_int maxBound))%bool
  then Err (Plain ErrInvalidCoordinate)
  else
    let start :=
      wrap64 (wrap64 (f_to_int (f_floor center) - halfKernel) + 1) in
    Ok (start, wrap64 (start + KernelSize)).
Proof.
  unfold CalculateKernelBounds.
  destruct (_ || _)%bool; [reflexivity |].
  cbv zeta. now rewrite span_is_KernelSize.
Qed.

End AnyFloat.

Lemma Qtrunc_inject_Z (z : Z) : Qtrunc (inject_Z z) = z.
Proof. unfold Qtrunc; simpl. apply Z.quot_1_r. Qed.

Lemma Qfloor_bounds (q : Q) (lo hi : Z) :
  (inject_Z lo <= q)%Q -> (q < inject_Z hi)%Q -> lo <= Qfloor q < hi.
Proof.
  intros Hlo Hhi. split.
  - rewrite <- (Qfloor_Z lo). now apply Qfloor_resp_le.
  - apply Z.lt_nge. intros Hge.
    apply (Qlt_irrefl q). eapply Qlt_le_trans; [exact Hhi |].
    eapply Qle_trans; [| apply Qfloor_le].
    rewrite <- Zle_Qle. exact Hge.
Qed.


(** In exact arithmetic: a center inside the axis gets the four indices
    around it. *)
Lemma CalculateKernelBounds_inside (center : Q) (size : Z) :
  min_int64 <= size <= max_int64 - 2 ->
  (0 <= center)%Q -> (center < inject_Z size)%Q ->
  CalculateKernelBounds center size
  = Ok (Qfloor center - 1, Qfloor center - 1 + 4).
Proof.
  intros Hsize H0 H1. rewrite CalculateKernelBounds_cases.
  unfold f_geb; cbn [f_ltb f_leb f_const f_of_int f_to_int f_floor Q_ops].
  assert (Hfl : 0 <= Qfloor center < size) by now apply Qfloor_bounds.
  apply Qltb_ge in H0. apply Qleb_gt in H1. rewrite H0, H1. cbn [orb].
  rewrite Qtrunc_inject_Z.
  unfold min_int64, max_int64, halfKernel, KernelSize in *.
  change (4 / 2) with 2.
  rewrite (wrap64_small (Qfloor center))
    by (unfold int64_range, min_int64, max_int64; lia).
  rewrite (wrap64_small (Qfloor center - 2))
    by (unfold int64_range, min_int64, max_int64; lia).
  rewrite (wrap64_small (Qfloor center - 2 + 1))
    by (unfold int64_range, min_int64, max_int64; lia).
  rewrite (wrap64_small (Qfloor center - 2 + 1 + 4))
    by (unfold int64_range, min_int64, max_int64; lia).
  cbv zeta. do 2 f_equal; lia.
Qed.



(** The same function on binary64: centers at both edges of a row of four
    pixels are accepted and their spans reach outside the row; the size
    itself and a negative center are refused. *)
Example CalculateKernelBounds_binary64 :
  CalculateKernelBounds 0.25%float 4 = Ok (-1, 3) /\
  CalculateKernelBounds 3.75%float 4 = Ok (2, 6) /\
  CalculateKernelBounds 4%float 4 = Err (Plain ErrInvalidCoordinate) /\
  CalculateKernelBounds (-0.5)%float 4 = Err (Plain ErrInvalidCoordinate).
Proof. vm_compute. repeat split. Qed.

(** Beyond 2^53 the conversion [float64(maxBound)] rounds, and the test is
    against the rounded size: the center 2^53 is refused for the size
    2^53 + 1, which no image has. *)
Example CalculateKernelBounds_binary64_rounded_size :
  CalculateKernelBounds 0x1p+53%float (2 ^ 53 + 1)
  = Err (Plain ErrInvalidCoordinate) /\
  CalculateKernelBounds 0x1p+53%float (2 ^ 53 + 2)
  = Ok (2 ^ 53 - 1, 2 ^ 53 + 3).
Proof. vm_compute. split; reflexivity. Qed.

(** ** [ClampUint8] and [ClampUint16] *)

Lemma Qtrunc_nonneg (q : Q) : (0 <= q)%Q -> Qtrunc q = Qfloor q.
Proof.
  destruct q as [n d]. unfold Qle, Qtrunc, Qfloor; simpl. intros Hn.
  apply Z.quot_div_nonneg; lia.
Qed.



Section ClampAnyFloat.
Context {F : Type} `{Float64Ops F}.

(** On every instance, and so for every binary64 input (the infinities
    and NaN included), the result fits the destination type. *)
Lemma ClampUint8_in_range (value : F) : 0 <= ClampUint8 value <= 255.
Proof.
  unfold ClampUint8, to_uint, MaxUint8.
  destruct (f_ltb value _); [lia |].
  destruct (f_gtb value _); [lia |].
  pose proof (wrapU_bound 8 (f_to_int (f_add value (f_const (1 # 2)%Q)))).
  change (2 ^ 8) with 256 in *. lia.
Qed.

Lemma ClampUint16_in_range (value : F) : 0 <= ClampUint16 value <= 65535.
Proof.
  unfold ClampUint16, to_uint, MaxUint16.
  destruct (f_ltb value _); [lia |].
  destruct (f_gtb value _); [lia |].
  pose proof (wrapU_bound 16 (f_to_int (f_add value (f_const (1 # 2)%Q)))).
  change (2 ^ 16) with 65536 in *. lia.
Qed.

End ClampAnyFloat.



(** Binary64 inputs of large magnitude, at the ends of the range and at a
    rounding boundary. *)
Example Clamp_binary64 :
  ClampUint8 0x1p+1000%float = 255 /\ ClampUint8 (-0x1p+1000)%float = 0 /\
  ClampUint8 255%float = 255 /\ ClampUint8 254.5%float = 255 /\
  ClampUint8 127.5%float = 128 /\ ClampUint8 127.25%float = 127 /\
  ClampUint8 (-0)%float = 0 /\
  ClampUint16 0x1p+1000%float = 65535 /\ ClampUint16 65534.5%float = 65535 /\
  ClampUint16 (-0x1p+1000)%float = 0 /\ ClampUint16 0.5%float = 1.
Proof. vm_compute. repeat split. Qed.

(** ** [CubicWeight] *)

(** *** In exact arithmetic *)





Lemma CubicWeight_tail (x : Q) : (2 <= Qabs x)%Q -> CubicWeight x = 0%Q.
Proof.
  intros H2. unfold CubicWeight; cbn [f_abs f_ltb f_const Q_ops].
  assert (H1 : (1 <= Qabs x)%Q) by lra.
  apply Qltb_ge in H1, H2. now rewrite H1, H2.
Qed.

(** *** On binary64 *)

(** The coefficients as the compiler converts them: the integers are exact,
    the thirds are rounded to the nearest float. *)
Example CubicWeight_coefficients_binary64 :
  F64.const (12 - 9 * b - 6 * c) = 7%float /\
  F64.const (-18 + 12 * b + 6 * c) = (-12)%float /\
  F64.const (6 - 2 * b) = 0x1.5555555555555p+2%float /\
  F64.const (- b - 6 * c) = (-0x1.2aaaaaaaaaaabp+1)%float /\
  F64.const (6 * b + 30 * c) = 12%float /\
  F64.const (-12 * b - 48 * c) = (-20)%float /\
  F64.const (8 * b + 24 * c) = 0x1.5555555555555p+3%float.
Proof. vm_compute. repeat split. Qed.

(** A float at or above 2 is below neither 1 nor 2. *)
Lemma binary64_at_least_two (a : float) :
  PrimFloat.leb 2 a = true ->
  PrimFloat.ltb a 1 = false /\ PrimFloat.ltb a 2 = false.
Proof.
  rewrite leb_spec, !ltb_spec.
  change (Prim2SF 2) with (S754_finite false 4503599627370496 (-51)).
  change (Prim2SF 1) with (S754_finite false 4503599627370496 (-52)).
  destruct (Prim2SF a) as [s | s | | s m e]; unfold SFleb, SFltb, SFcompare.
  - destruct s; discriminate.
  - destruct s; [discriminate | auto].
  - discriminate.
  - destruct s; [discriminate |].
    assert (H52 : (e ?= -52) = CompOpp (-52 ?= e)) by apply Z.compare_antisym.
    assert (H51 : (e ?= -51) = CompOpp (-51 ?= e)) by apply Z.compare_antisym.
    rewrite H51.
    change (Pos.compare_cont Eq m 4503599627370496)
      with (Pos.compare_cont (CompOpp Eq) m 4503599627370496).
    rewrite <- (Pos.compare_cont_antisym 4503599627370496 m Eq).
    destruct (Z.compare_spec (-51) e) as [He | He | He].
    + subst e. rewrite H52. change (-52 ?= -51) with Lt.
      generalize (Pos.compare_cont Eq 4503599627370496 m). intros cmp.
      destruct cmp; cbv beta iota delta [CompOpp]; intros;
        (discriminate || auto).
    + assert (H1 : (e ?= -52) = Gt) by (apply Z.compare_gt_iff; lia).
      rewrite H1. cbv beta iota delta [CompOpp]. auto.
    + discriminate.
Qed.

Lemma CubicWeight_tail_binary64 (x : float) :
  PrimFloat.leb 2 (PrimFloat.abs x) = true -> CubicWeight x = 0%float.
Proof.
  intros H2. apply binary64_at_least_two in H2 as [Hlt1 Hlt2].
  unfold CubicWeight; cbn [f_abs f_ltb f_const F64_ops].
  change (F64.const 1) with 1%float. change (F64.const 2) with 2%float.
  rewrite Hlt1, Hlt2. reflexivity.
Qed.

(** C1, as the code has it. The weight at 0 is [(6 - 2B) / 6 = 8/9] (on
    binary64 the float nearest to it), and the weight is 0 for every [x]
    with [|x| >= 2], in exact arithmetic and for every binary64 [x]. *)
Theorem CubicWeight_center_and_tail :
  (CubicWeight 0%Q == 8 # 9)%Q /\
  (forall x : Q, (2 <= Qabs x)%Q -> CubicWeight x = 0%Q) /\
  CubicWeight 0%float = 0x1.c71c71c71c71cp-1%float /\
  (forall x : float,
      PrimFloat.leb 2 (PrimFloat.abs x) = true -> CubicWeight x = 0%float).
Proof.
  split; [| split; [| split]].
  - reflexivity.
  - exact CubicWeight_tail.
  - vm_compute. reflexivity.
  - exact CubicWeight_tail_binary64.
Qed.

(** C1, as the spec has it, fails: the weight at 0 is not 1, neither in
    exact arithmetic nor on binary64. *)
Lemma CubicWeight_zero_is_not_one :
  ~ (CubicWeight 0%Q == 1)%Q /\ CubicWeight 0%float <> 1%float.
Proof.
  split.
  - intros H. vm_compute in H. discriminate H.
  - intros H. apply (f_equal (fun z => PrimFloat.ltb z 1)) in H.
    vm_compute in H. discriminate H.
Qed.

Lemma CubicWeight_center_and_tail_witness :
  CubicWeight (5 # 2)%Q = 0%Q /\ CubicWeight (-2)%Q = 0%Q /\
  CubicWeight 2%float = 0%float /\ CubicWeight (-7.5)%float = 0%float /\
  CubicWeight infinity = 0%float.
Proof.
  destruct CubicWeight_center_and_tail as (_ & Hexact & _ & Hbinary64).
  repeat split; (apply Hexact || apply Hbinary64); vm_compute; congruence.
Defined.

(** *** The kernel is normalized *)

#[local] Instance inner_poly_proper : Proper (Qeq ==> Qeq) inner_poly.
Proof. intros s t Hst. unfold inner_poly. now rewrite Hst. Qed.
#[local] Instance outer_poly_proper : Proper (Qeq ==> Qeq) outer_poly.
Proof. intros s t Hst. unfold outer_poly. now rewrite Hst. Qed.




(** *** Continuity at the piece boundaries *)










(** On binary64 the pieces are evaluated with rounding: the weights just
    below and at the two boundaries differ by less than 2^-30 (below 1e-9),
    the two pieces at 1 and the outer piece at 2 by less than 2^-50. *)
Example CubicWeight_binary64_boundaries :
  let below1 := CubicWeight (next_down 1)%float in
  let at1 := CubicWeight 1%float in
  let below2 := CubicWeight (next_down 2)%float in
  let at2 := CubicWeight 2%float in
  PrimFloat.ltb (PrimFloat.abs (below1 - at1)) 0x1p-30 = true /\
  PrimFloat.ltb (PrimFloat.abs (below2 - at2)) 0x1p-30 = true /\
  PrimFloat.ltb (PrimFloat.abs (cubic_inner 1 - cubic_outer 1)%float) 0x1p-50 = true /\
  PrimFloat.ltb (PrimFloat.abs (cubic_outer 2)%float) 0x1p-50 = true. 
Proof. vm_compute. repeat split. Qed.

(** ** Loops *)

(** A property of the loop state that every successful iteration keeps
    holds when the loop ends without an error. *)
Lemma for_each_invariant {S} (P : S -> Prop) (body : Z -> S -> M S) :
  (forall i s t s' t', P s -> body i s t = (Ok s', t') -> P s') ->
  forall idx s t s' t',
    P s -> for_each idx body s t = (Ok s', t') -> P s'.
Proof.
  intros Hbody idx. induction idx as [| i rest IH]; intros s t s' t' Hs Hrun.
  - cbn in Hrun. injection Hrun as <- _. exact Hs.
  - cbn [for_each] in Hrun. unfold bind in Hrun.
    destruct (body i s t) as [[s1 | e] t1] eqn:Hstep; [| discriminate].
    eapply IH; [| exact Hrun]. eapply Hbody; eassumption.
Qed.

(** A loop whose iterations all succeed ends without an error. *)
Lemma for_each_total {S} (P : S -> Prop) (body : Z -> S -> M S) (idx : list Z) :
  (forall i s t, In i idx -> P s ->
                 exists s' t', body i s t = (Ok s', t') /\ P s') ->
  forall s t, P s -> exists s' t', for_each idx body s t = (Ok s', t') /\ P s'.
Proof.
  induction idx as [| i rest IH]; intros Hbody s t Hs.
  - exists s, t. split; [reflexivity | exact Hs].
  - destruct (Hbody i s t (or_introl eq_refl) Hs) as (s1 & t1 & Hstep & Hs1).
    destruct (IH (fun j s t Hj => Hbody j s t (or_intror Hj)) s1 t1 Hs1)
      as (s' & t' & Hrun & Hs').
    exists s', t'. split; [| exact Hs'].
    cbn [for_each]. unfold bind. now rewrite Hstep.
Qed.

Lemma In_range (n i : Z) : In i (range n) <-> 0 <= i < n.
Proof.
  unfold range. rewrite in_map_iff. split.
  - intros (k & <- & Hk). apply in_seq in Hk. lia.
  - intros Hi. exists (Z.to_nat i). split; [lia |]. apply in_seq. lia.
Qed.

(** ** Destination buffers *)

Lemma set_nth_length {A} (n : nat) (v : A) (l : list A) :
  length (set_nth n v l) = length l.
Proof.
  revert n. induction l as [| h t IH]; intros [| n]; cbn; auto.
Qed.

Lemma SetPixel_frame (dst : Buffer) (x y : Z) (px : list Z) :
  same_frame dst (SetPixel dst x y px).
Proof.
  unfold SetPixel, same_frame. destruct (In_rect x y (Rect dst)); cbn.
  - now rewrite set_nth_length.
  - auto.
Qed.

Section ScanAnyFloat.
Context {F : Type} `{Float64Ops F}.

(** A scan that ends without an error returns a buffer of the requested
    type and of exactly the target size, and the target size is valid. *)
Lemma scan_frame (k : Kind) (sample : F -> F -> result (list Z))
    (r : Resizer) (srcWidth srcHeight : Z) (t t' : Trace) (dst : Buffer) :
  scan k sample r srcWidth srcHeight t = (Ok dst, t') ->
  ValidateDimensions (TargetWidth (config r)) (TargetHeight (config r)) = Ok tt /\
  same_frame (NewBuffer k (Rect0 (TargetWidth (config r)) (TargetHeight (config r)))) dst.
Proof.
  unfold scan, bind, lift, emit.
  destruct (ValidateDimensions _ _) as [[] | e]; [| discriminate].
  intros Hrun. split; [reflexivity |].
  revert Hrun. apply for_each_invariant with (P := same_frame _).
  - intros y s t0 s' t0' Hs. apply for_each_invariant with (P := same_frame _); [| exact Hs].
    intros x s1 t1 s1' t1' Hs1. unfold bind, emit, fail, ret.
    destruct (sample _ _); [| discriminate].
    intros [= <- _]. destruct Hs1 as (Hk & Hr & Hl).
    destruct (SetPixel_frame s1 x y a) as (Hk' & Hr' & Hl').
    repeat split; congruence.
  - repeat split.
Qed.

End ScanAnyFloat.

(** ** Validation *)

Lemma ValidateDimensions_ok (w h : Z) :
  ValidateDimensions w h = Ok tt <-> dimension_ok w /\ dimension_ok h.
Proof.
  unfold ValidateDimensions, dimension_ok, MinImageDimension, MaxImageDimension.
  destruct (Z.ltb_spec w 1); [cbn; split; [discriminate | lia] |].
  destruct (Z.ltb_spec h 1); [cbn; split; [discriminate | lia] |].
  cbn [orb].
  destruct (Z.gtb_spec w 65535); [cbn; split; [discriminate | lia] |].
  destruct (Z.gtb_spec h 65535); [cbn; split; [discriminate | lia] |].
  cbn [orb].
  rewrite wrap64_small
    by (unfold int64_range, min_int64, max_int64; nia).
  destruct (Z.gtb_spec (w * h) (65535 * 65535)); [nia |].
  split; [lia | reflexivity].
Qed.

Lemma ValidateDimensions_error (w h : Z) (e : Error) :
  ValidateDimensions w h = Err e -> root e = ErrInvalidDimension.
Proof.
  unfold ValidateDimensions.
  repeat (destruct (_ || _)%bool; [intros [= <-]; reflexivity |]).
  destruct (_ >? _); [intros [= <-]; reflexivity | discriminate].
Qed.

Section RatioAnyFloat.
Context {F : Type} `{Float64Ops F}.

Lemma ValidateResizeRatio_error (sw sh tw th : Z) (e : Error) :
  ValidateResizeRatio sw sh tw th = Err e -> root e = ErrInvalidDimension.
Proof.
  unfold ValidateResizeRatio.
  destruct (ValidateDimensions sw sh) as [[] | e1] eqn:H1;
    [| intros [= <-]; eapply ValidateDimensions_error; eassumption].
  destruct (ValidateDimensions tw th) as [[] | e2] eqn:H2;
    [| intros [= <-]; eapply ValidateDimensions_error; eassumption].
  cbv zeta.
  repeat (destruct (_ || _)%bool; [intros [= <-]; reflexivity |]).
  discriminate.
Qed.

End RatioAnyFloat.

(** In exact arithmetic the validator accepts exactly the valid requests. *)
Lemma ValidateResizeRatio_ok (sw sh tw th : Z) :
  ValidateResizeRatio (F:=Q) sw sh tw th = Ok tt <-> valid_request sw sh tw th.
Proof.
  unfold ValidateResizeRatio, valid_request, ratio_ok.
  destruct (ValidateDimensions sw sh) as [[] | e1] eqn:H1.
  2:{ split; [discriminate |]. intros (A & B & _).
      assert (Hok : ValidateDimensions sw sh = Ok tt)
        by (apply ValidateDimensions_ok; auto).
      congruence. }
  destruct (ValidateDimensions tw th) as [[] | e2] eqn:H2.
  2:{ split; [discriminate |]. intros (_ & _ & A & B & _).
      assert (Hok : ValidateDimensions tw th = Ok tt)
        by (apply ValidateDimensions_ok; auto).
      congruence. }
  apply ValidateDimensions_ok in H1, H2.
  unfold f_gtb, maxScaleFactor, minScaleFactor;
    cbn [f_ltb f_div f_of_int f_const Q_ops].
  set (wr := (inject_Z tw / inject_Z sw)%Q). set (hr := (inject_Z th / inject_Z sh)%Q).
  destruct (Qltb 16 wr) eqn:Ha;
    [cbn; q_tests; split; [discriminate | intros; exfalso; lra] |].
  destruct (Qltb wr (1 # 16)) eqn:Hb;
    [cbn; q_tests; split; [discriminate | intros; exfalso; lra] |].
  cbn [orb].
  destruct (Qltb 16 hr) eqn:Hc;
    [cbn; q_tests; split; [discriminate | intros; exfalso; lra] |].
  destruct (Qltb hr (1 # 16)) eqn:Hd;
    [cbn; q_tests; split; [discriminate | intros; exfalso; lra] |].
  cbn [orb]. q_tests. split; [intros _ | reflexivity]. tauto.
Qed.

(** ** Sampling in exact arithmetic *)

Lemma inject_Z_pos (n : Z) : 0 < n -> (0 < inject_Z n)%Q.
Proof. intros Hn. change 0%Q with (inject_Z 0). now rewrite <- Zlt_Qlt. Qed.

(** The center of destination index [n] on an axis lies inside the source
    axis. *)
Lemma source_center_in_range (n size target : Z) :
  0 < size -> 0 <= n < target ->
  let center := ((inject_Z n + (1 # 2)) * (inject_Z size / inject_Z target))%Q in
  (0 <= center)%Q /\ (center < inject_Z size)%Q.
Proof.
  intros Hsize Hn center.
  assert (HT : (0 < inject_Z target)%Q) by (apply inject_Z_pos; lia).
  assert (HS : (0 < inject_Z size)%Q) by (apply inject_Z_pos; lia).
  assert (Hn0 : (0 <= inject_Z n)%Q)
    by (change 0%Q with (inject_Z 0); rewrite <- Zle_Qle; lia).
  assert (Hn1 : (inject_Z n + 1 <= inject_Z target)%Q).
  { change 1%Q with (inject_Z 1). rewrite <- inject_Z_plus, <- Zle_Qle. lia. }
  set (ratio := (inject_Z size / inject_Z target)%Q) in *.
  assert (Hr : (0 < ratio)%Q).
  { apply Qlt_shift_div_l; [exact HT | lra]. }
  assert (Hrt : (ratio * inject_Z target == inject_Z size)%Q).
  { unfold ratio. field. lra. }
  subst center. split.
  - apply Qmult_le_0_compat; lra.
  - rewrite <- Hrt.
    assert (Hgap : (0 < (inject_Z target - (inject_Z n + (1 # 2))) * ratio)%Q).
    { apply Qmult_lt_0_compat; lra. }
    lra.
Qed.

(** The frame of a center inside the axis: both bounds are found and the
    fractional offsets lie in [0, 1). *)
Lemma kernel_frame_exact (x y : Q) (width height : Z) :
  dimension_ok width -> dimension_ok height ->
  (0 <= x)%Q -> (x < inject_Z width)%Q ->
  (0 <= y)%Q -> (y < inject_Z height)%Q ->
  kernel_frame x y width height =
    Ok (Qfloor x - 1, Qfloor x - 1 + 4, Qfloor y - 1, Qfloor y - 1 + 4,
        (x - inject_Z (Qfloor x))%Q, (y - inject_Z (Qfloor y))%Q).
Proof.
  intros Hw Hh Hx0 Hx1 Hy0 Hy1. unfold kernel_frame, dimension_ok in *.
  rewrite (CalculateKernelBounds_inside x width), (CalculateKernelBounds_inside y height);
    try assumption; try (unfold min_int64, max_int64; lia).
  cbn [f_sub f_of_int f_to_int Q_ops].
  pose proof (Qfloor_bounds x 0 width Hx0 Hx1).
  pose proof (Qfloor_bounds y 0 height Hy0 Hy1).
  rewrite !Qtrunc_nonneg by assumption.
  rewrite !wrap64_small by (unfold int64_range, min_int64, max_int64; lia).
  reflexivity.
Qed.

Lemma fraction_in_unit (x : Q) :
  (0 <= x - inject_Z (Qfloor x))%Q /\ (x - inject_Z (Qfloor x) < 1)%Q.
Proof.
  pose proof (Qfloor_le x). pose proof (Qlt_floor x) as Hlt.
  rewrite inject_Z_plus in Hlt. change (inject_Z 1) with 1%Q in Hlt.
  split; lra.
Qed.

(** In exact arithmetic the interpolation of a window fails only on the
    check of the offsets. *)
Lemma InterpolateBicubic_exact (pixels : Pixels (F:=Q)) (dx dy : Q) :
  (0 <= dx)%Q -> (dx <= 1)%Q -> (0 <= dy)%Q -> (dy <= 1)%Q ->
  InterpolateBicubic pixels dx dy
  = Ok (col_sum pixels dx dy [0; 1; 2; 3] 0%Q).
Proof.
  intros Hx0 Hx1 Hy0 Hy1. unfold InterpolateBicubic, f_gtb.
  cbn [f_ltb f_const f_is_nan f_is_inf Q_ops].
  apply Qltb_ge in Hx0, Hx1, Hy0, Hy1. now rewrite Hx0, Hx1, Hy0, Hy1.
Qed.

(** In exact arithmetic the four samplers succeed at every center inside
    the source. *)
Lemma samplers_succeed (src : Image) (x y : Q) (width height : Z) :
  dimension_ok width -> dimension_ok height ->
  (0 <= x)%Q -> (x < inject_Z width)%Q ->
  (0 <= y)%Q -> (y < inject_Z height)%Q ->
  (exists v, sampleRGBA src x y width height = Ok v) /\
  (exists v, sampleRGBA64 src x y width height = Ok v) /\
  (exists v, sampleGray src x y width height = Ok v) /\
  (exists v, sampleGray16 src x y width height = Ok v).
Proof.
  intros Hw Hh Hx0 Hx1 Hy0 Hy1.
  destruct (fraction_in_unit x) as [Hdx0 Hdx1].
  destruct (fraction_in_unit y) as [Hdy0 Hdy1].
  unfold sampleRGBA, sampleRGBA64, sampleGray, sampleGray16.
  rewrite (kernel_frame_exact x y width height) by assumption.
  cbv zeta. rewrite !InterpolateBicubic_exact by lra.
  repeat split; eexists; reflexivity.
Qed.

Section ScanTotal.
Context {F : Type} `{Float64Ops F}.

(** A scan of a valid target whose sampler succeeds at every destination
    pixel ends without an error. *)
Lemma scan_total (k : Kind) (sample : F -> F -> result (list Z))
    (r : Resizer) (srcWidth srcHeight : Z) (t : Trace) :
  let tw := TargetWidth (config r) in
  let th := TargetHeight (config r) in
  dimension_ok tw -> dimension_ok th ->
  (forall x y, 0 <= x < tw -> 0 <= y < th ->
     exists px,
       sample (f_mul (f_add (f_of_int x) (f_const (1 # 2)))
                     (f_div (f_of_int srcWidth) (f_of_int tw)))
              (f_mul (f_add (f_of_int y) (f_const (1 # 2)))
                     (f_div (f_of_int srcHeight) (f_of_int th))) = Ok px) ->
  exists dst t', scan k sample r srcWidth srcHeight t = (Ok dst, t').
Proof.
  intros tw th Htw Hth Hsample. unfold scan, bind, lift, emit. fold tw th.
  assert (Hv : ValidateDimensions tw th = Ok tt)
    by (apply ValidateDimensions_ok; auto).
  rewrite Hv.
  edestruct (for_each_total (fun _ : Buffer => True)) as (dst & t' & Hrun & _);
    [| exact I | exists dst, t'; exact Hrun].
  intros y s t0 Hy _. apply In_range in Hy.
  edestruct (for_each_total (fun _ : Buffer => True)) as (s' & t1 & Hrow & _);
    [| exact I | exists s', t1; split; [exact Hrow | exact I]].
  intros x s1 t2 Hx _. apply In_range in Hx.
  destruct (Hsample x y Hx Hy) as (px & Hpx).
  unfold bind, emit, ret. rewrite Hpx. eauto.
Qed.

End ScanTotal.

(** In exact arithmetic a valid request on a non-nil image is served: no
    error of any kind is returned. *)
Lemma Resize_exact_succeeds (r : Resizer) (src : Image) (t : Trace) :
  valid_request (Dx (Bounds src)) (Dy (Bounds src))
                (TargetWidth (config r)) (TargetHeight (config r)) ->
  exists dst t',
    Resize (F:=Q) r (Some src) t
    = ((Pointer (kind_of_model (Model src)) (Some dst), None), t').
Proof.
  intros Hvalid. pose proof Hvalid as (Hsw & Hsh & Htw & Hth & _ & _).
  unfold Resize.
  assert (Hv1 : ValidateDimensions (Dx (Bounds src)) (Dy (Bounds src)) = Ok tt)
    by (apply ValidateDimensions_ok; auto).
  apply ValidateResizeRatio_ok in Hvalid. rewrite Hv1, Hvalid.
  assert (Hs : forall x y,
             0 <= x < TargetWidth (config r) -> 0 <= y < TargetHeight (config r) ->
             let cx := ((inject_Z x + (1 # 2))
                        * (inject_Z (Dx (Bounds src)) / inject_Z (TargetWidth (config r))))%Q in
             let cy := ((inject_Z y + (1 # 2))
                        * (inject_Z (Dy (Bounds src)) / inject_Z (TargetHeight (config r))))%Q in
             (exists v, sampleRGBA src cx cy (Dx (Bounds src)) (Dy (Bounds src)) = Ok v) /\
             (exists v, sampleRGBA64 src cx cy (Dx (Bounds src)) (Dy (Bounds src)) = Ok v) /\
             (exists v, sampleGray src cx cy (Dx (Bounds src)) (Dy (Bounds src)) = Ok v) /\
             (exists v, sampleGray16 src cx cy (Dx (Bounds src)) (Dy (Bounds src)) = Ok v)).
  { intros x y Hx Hy cx cy.
    destruct (source_center_in_range x (Dx (Bounds src)) (TargetWidth (config r)))
      as [Hx0 Hx1]; [unfold dimension_ok in *; lia | exact Hx |].
    destruct (source_center_in_range y (Dy (Bounds src)) (TargetHeight (config r)))
      as [Hy0 Hy1]; [unfold dimension_ok in *; lia | exact Hy |].
    now apply samplers_succeed. }
  assert (Hscan : forall k sample,
             (forall x y,
                 0 <= x < TargetWidth (config r) -> 0 <= y < TargetHeight (config r) ->
                 exists px,
                   sample ((inject_Z x + (1 # 2))
                           * (inject_Z (Dx (Bounds src)) / inject_Z (TargetWidth (config r))))%Q
                          ((inject_Z y + (1 # 2))
                           * (inject_Z (Dy (Bounds src)) / inject_Z (TargetHeight (config r))))%Q
                   = Ok px) ->
             exists dst t',
               as_image k (scan k sample r (Dx (Bounds src)) (Dy (Bounds src))) t
               = ((Pointer k (Some dst), None), t')).
  { intros k sample Hsample.
    destruct (@scan_total Q Q_ops k sample r (Dx (Bounds src)) (Dy (Bounds src)) t Htw Hth Hsample)
      as (dst & t' & Hrun).
    exists dst, t'. unfold as_image. now rewrite Hrun. }
  unfold resizeRGBA, resizeRGBA64, resizeGray, resizeGray16.
  destruct (Model src); cbn [kind_of_model]; apply Hscan; intros x y Hx Hy;
    destruct (Hs x y Hx Hy) as ((v1 & H1) & (v2 & H2) & (v3 & H3) & (v4 & H4));
    rewrite ?H1, ?H2, ?H3, ?H4; cbn [quad single];
    try (destruct v1 as [[[? ?] ?] ?]); try (destruct v2 as [[[? ?] ?] ?]);
    eexists; reflexivity.
Qed.

(** ** [Resize]: the size of the output *)

Section ResizeAnyFloat.
Context {F : Type} `{Float64Ops F}.

(** On every instance, whatever [Resize] returns without an error is a
    non-nil buffer of the type chosen by the colour model, framed like a
    fresh buffer of the target size, and the target size is valid. *)
Lemma Resize_success_frame (r : Resizer) (src : Image) (t t' : Trace)
    (img : ImageValue) :
  Resize r (Some src) t = ((img, None), t') ->
  exists dst,
    img = Pointer (kind_of_model (Model src)) (Some dst) /\
    ValidateDimensions (TargetWidth (config r)) (TargetHeight (config r)) = Ok tt /\
    same_frame (NewBuffer (kind_of_model (Model src))
                  (Rect0 (TargetWidth (config r)) (TargetHeight (config r)))) dst.
Proof.
  unfold Resize.
  destruct (ValidateDimensions (Dx _) _); [| discriminate].
  destruct (ValidateResizeRatio _ _ _ _); [| discriminate].
  assert (Hscan : forall k sample,
             as_image k (scan k sample r (Dx (Bounds src)) (Dy (Bounds src))) t
             = ((img, None), t') ->
             exists dst,
               img = Pointer k (Some dst) /\
               ValidateDimensions (TargetWidth (config r)) (TargetHeight (config r)) = Ok tt /\
               same_frame (NewBuffer k (Rect0 (TargetWidth (config r))
                                              (TargetHeight (config r)))) dst).
  { intros k sample. unfold as_image.
    destruct (scan k sample r _ _ t) as [[dst | e] t1] eqn:Hrun; [| discriminate].
    intros [= <- _]. exists dst. split; [reflexivity |].
    eapply scan_frame; eassumption. }
  unfold resizeRGBA, resizeRGBA64, resizeGray, resizeGray16.
  destruct (Model src); cbn [kind_of_model]; apply Hscan.
Qed.

End ResizeAnyFloat.

Lemma Rect0_size (w h : Z) :
  dimension_ok w -> dimension_ok h ->
  Dx (Rect0 w h) = w /\ Dy (Rect0 w h) = h.
Proof.
  unfold dimension_ok, Dx, Dy, Rect0; cbn. intros Hw Hh.
  rewrite !Z.sub_0_r.
  split; apply wrap64_small; unfold int64_range, min_int64, max_int64; lia.
Qed.

Lemma NewBuffer_length (k : Kind) (w h : Z) :
  dimension_ok w -> dimension_ok h ->
  length (Pix (NewBuffer k (Rect0 w h))) = Z.to_nat (w * h).
Proof.
  intros Hw Hh. destruct (Rect0_size w h Hw Hh) as [Hx Hy].
  unfold NewBuffer; cbn [Pix]. now rewrite repeat_length, Hx, Hy.
Qed.

(** C2. For a valid request on a non-nil source image: in exact arithmetic
    [Resize] succeeds, and on every instance (so on binary64) whatever
    [Resize] returns without an error is a buffer of the type of its
    dispatch path whose width is [TargetWidth] and whose height is
    [TargetHeight], with one pixel per point. *)
Theorem Resize_output_dimensions (r : Resizer) (src : Image) (t : Trace) :
  valid_request (Dx (Bounds src)) (Dy (Bounds src))
                (TargetWidth (config r)) (TargetHeight (config r)) ->
  (exists dst t',
      Resize (F:=Q) r (Some src) t
      = ((Pointer (kind_of_model (Model src)) (Some dst), None), t')) /\
  (forall (F : Type) (ops : Float64Ops F) (img : ImageValue) (t' : Trace),
      Resize (F:=F) r (Some src) t = ((img, None), t') ->
      exists dst,
        img = Pointer (kind_of_model (Model src)) (Some dst) /\
        kind dst = kind_of_model (Model src) /\
        Dx (Rect dst) = TargetWidth (config r) /\
        Dy (Rect dst) = TargetHeight (config r) /\
        length (Pix dst)
        = Z.to_nat (TargetWidth (config r) * TargetHeight (config r))).
Proof.
  intros Hvalid. split; [now apply Resize_exact_succeeds |].
  intros F ops img t' Hrun.
  destruct (Resize_success_frame r src t t' img Hrun)
    as (dst & -> & Hdims & Hk & Hr & Hl).
  apply ValidateDimensions_ok in Hdims as [Hw Hh].
  exists dst. split; [reflexivity |].
  destruct (Rect0_size _ _ Hw Hh) as [Hx Hy].
  rewrite Hk, Hr, Hl, (NewBuffer_length _ _ _ Hw Hh). cbn [kind Rect NewBuffer].
  auto.
Qed.

Lemma valid_4x4_to_8x8 :
  valid_request (Dx (Bounds gray_4x4)) (Dy (Bounds gray_4x4))
                (TargetWidth (config to_8x8)) (TargetHeight (config to_8x8)).
Proof.
  unfold valid_request, dimension_ok, ratio_ok. vm_compute.
  repeat split; discriminate.
Defined.

Lemma Resize_output_dimensions_witness :
  (exists dst t',
      Resize (F:=Q) to_8x8 (Some gray_4x4) []
      = ((Pointer KGray (Some dst), None), t')) /\
  (exists dst,
      fst (fst (Resize (F:=float) to_8x8 (Some gray_4x4) []))
      = Pointer KGray (Some dst) /\
      kind dst = KGray /\ Dx (Rect dst) = 8 /\ Dy (Rect dst) = 8 /\
      length (Pix dst) = 64%nat).
Proof.
  destruct (Resize_output_dimensions to_8x8 gray_4x4 [] valid_4x4_to_8x8)
    as [Hexact Hany].
  split; [exact Hexact |].
  apply (Hany float F64_ops
              (fst (fst (Resize (F:=float) to_8x8 (Some gray_4x4) [])))
              (snd (Resize (F:=float) to_8x8 (Some gray_4x4) []))).
  vm_compute. reflexivity.
Defined.

(** ** [Resize]: rejected requests *)




(** A loop that returns an error got it from one of its iterations. *)
Lemma for_each_error {S} (body : Z -> S -> M S) (idx : list Z)
    (s : S) (t t' : Trace) (e : Error) :
  for_each idx body s t = (Err e, t') ->
  exists i s0 t0, In i idx /\ body i s0 t0 = (Err e, t').
Proof.
  revert s t. induction idx as [| i rest IH]; intros s t Hrun.
  - discriminate Hrun.
  - cbn [for_each] in Hrun. unfold bind in Hrun.
    destruct (body i s t) as [[s1 | e1] t1] eqn:Hstep.
    + destruct (IH s1 t1 Hrun) as (j & s0 & t0 & Hj & Hbody).
      exists j, s0, t0. split; [now right | exact Hbody].
    + injection Hrun as <- <-. exists i, s, t. split; [now left | exact Hstep].
Qed.

Section ErrorsAnyFloat.
Context {F : Type} `{Float64Ops F}.

Lemma InterpolateBicubic_error (pixels : Pixels) (dx dy : F) (e : Error) :
  InterpolateBicubic pixels dx dy = Err e ->
  e = Plain ErrInvalidCoordinate \/ e = Plain ErrInvalidChannel.
Proof.
  unfold InterpolateBicubic.
  destruct (_ || _ || _ || _)%bool; [intros [= <-]; now left |].
  destruct (_ || _)%bool; [intros [= <-]; now right | discriminate].
Qed.

Lemma kernel_frame_error (x y : F) (width height : Z) (e : Error) :
  kernel_frame x y width height = Err e -> e = Plain ErrInvalidCoordinate.
Proof.
  unfold kernel_frame. rewrite !CalculateKernelBounds_cases.
  destruct (_ || _)%bool; [intros [= <-]; reflexivity |]. cbv zeta.
  destruct (_ || _)%bool; [intros [= <-]; reflexivity | discriminate].
Qed.

Ltac sampler_error :=
  repeat match goal with
  | |- context [InterpolateBicubic ?p ?dx ?dy] =>
      let Hi := fresh "Hi" in
      destruct (InterpolateBicubic p dx dy) eqn:Hi;
      [| intros [= <-]; eapply InterpolateBicubic_error; exact Hi]
  end.

Lemma samplers_error (src : Image) (x y : F) (width height : Z) (e : Error) :
  quad (sampleRGBA src x y width height) = Err e \/
  quad (sampleRGBA64 src x y width height) = Err e \/
  single (sampleGray src x y width height) = Err e \/
  single (sampleGray16 src x y width height) = Err e ->
  sampling_error e.
Proof.
  unfold sampleRGBA, sampleRGBA64, sampleGray, sampleGray16, sampling_error.
  destruct (kernel_frame x y width height)
    as [[[[[[sx ex] sy] ey] dx] dy] | e0] eqn:Hf.
  2:{ apply kernel_frame_error in Hf. subst e0. cbn.
      intros [H1 | [H1 | [H1 | H1]]]; injection H1 as <-; now left. }
  cbv zeta.
  intros [H1 | [H1 | [H1 | H1]]]; revert H1; sampler_error; discriminate.
Qed.

(** An error of a scan is the failure of the target's validation or the
    error of a sampler, wrapped with the pixel. *)
Lemma scan_error (k : Kind) (sample : F -> F -> result (list Z))
    (r : Resizer) (srcWidth srcHeight : Z) (t t' : Trace) (e : Error) :
  scan k sample r srcWidth srcHeight t = (Err e, t') ->
  ValidateDimensions (TargetWidth (config r)) (TargetHeight (config r)) = Err e
  \/ exists x y cx cy e0,
       sample cx cy = Err e0 /\ e = Wrapped (SamplingFailedAt x y) e0.
Proof.
  unfold scan, bind, lift, emit.
  destruct (ValidateDimensions _ _) as [[] | e1]; [| intros [= <- _]; now left].
  intros Hrun. right.
  apply for_each_error in Hrun as (y & s0 & t0 & _ & Hrow).
  apply for_each_error in Hrow as (x & s1 & t1 & _ & Hpix).
  unfold bind, emit, fail, ret in Hpix.
  destruct (sample _ _) as [px | e0] eqn:Hs; [discriminate |].
  injection Hpix as <- _. eauto 8.
Qed.

(** On every instance an error of [Resize] that is [ErrInvalidDimension]
    at its root comes from the validation at its start, with the nil image
    and the trace as it was. *)
Lemma Resize_dimension_error (r : Resizer) (src : Image) (t t' : Trace)
    (img : ImageValue) (e : Error) :
  Resize r (Some src) t = ((img, Some e), t') ->
  root e = ErrInvalidDimension ->
  img = NilInterface /\ t' = t /\
  ValidateResizeRatio (Dx (Bounds src)) (Dy (Bounds src))
    (TargetWidth (config r)) (TargetHeight (config r)) <> Ok tt.
Proof.
  unfold Resize. cbv zeta.
  destruct (ValidateDimensions (Dx (Bounds src)) (Dy (Bounds src)))
    as [[] | e1] eqn:Hv1.
  2:{ intros [= <- <- <-] _. unfold ValidateResizeRatio. rewrite Hv1.
      repeat split. discriminate. }
  destruct (ValidateResizeRatio _ _ _ _) as [[] | e2] eqn:Hv2.
  2:{ intros [= <- <- <-] _. repeat split. discriminate. }
  assert (Htarget :
            ValidateDimensions (TargetWidth (config r)) (TargetHeight (config r))
            = Ok tt).
  { revert Hv2. unfold ValidateResizeRatio. rewrite Hv1.
    destruct (ValidateDimensions (TargetWidth _) _) as [[] | e3];
      [reflexivity | discriminate]. }
  assert (Hscan : forall k sample,
             (forall cx cy e0, sample cx cy = Err e0 -> sampling_error e0) ->
             as_image k (scan k sample r (Dx (Bounds src)) (Dy (Bounds src))) t
             = ((img, Some e), t') ->
             root e <> ErrInvalidDimension).
  { intros k sample Hsample. unfold as_image.
    destruct (scan k sample r _ _ t) as [[dst | e0] t1] eqn:Hrun; [discriminate |].
    intros [= _ <- _].
    apply scan_error in Hrun as [Hbad | (x & y & cx & cy & e1 & Hs & ->)].
    - congruence.
    - cbn [root]. destruct (Hsample cx cy e1 Hs) as [-> | ->]; discriminate. }
  unfold resizeRGBA, resizeRGBA64, resizeGray, resizeGray16.
  intros Hrun Hroot. exfalso. revert Hroot.
  destruct (Model src);
    (eapply Hscan; [| exact Hrun]; intros cx cy e0 Hs; cbv beta in Hs;
     apply (samplers_error src cx cy (Dx (Bounds src)) (Dy (Bounds src)) e0);
     tauto).
Qed.


End ErrorsAnyFloat.



(** The scenario of the 17-fold enlargement, in exact arithmetic and on
    binary64: the ratio error, the nil image, and an empty trace. *)
Example Resize_17_times_rejected :
  Resize (F:=Q) to_170x170 (Some src_10x10) []
  = ((NilInterface,
      Some (Wrapped InvalidResizeRatio
              (Wrapped WidthScaleOutOfRange (Plain ErrInvalidDimension)))), [])
  /\
  Resize (F:=float) to_170x170 (Some src_10x10) []
  = ((NilInterface,
      Some (Wrapped InvalidResizeRatio
              (Wrapped WidthScaleOutOfRange (Plain ErrInvalidDimension)))), []).
Proof. vm_compute. split; reflexivity. Qed.

(** On binary64 the validator decides the scale factor as exact arithmetic
    does at the two ends of the window, for the smallest and the largest
    sizes: 16 times and one sixteenth are accepted, one pixel more is not. *)
Example ValidateResizeRatio_binary64_boundaries :
  let accepted (srcW dstW : Z) : bool :=
    match ValidateResizeRatio (F:=float) srcW 1 dstW 1 with
    | Ok _ => true
    | Err _ => false
    end in
  accepted 1 16 = true /\ accepted 1 17 = false /\
  accepted 16 1 = true /\ accepted 17 1 = false /\
  accepted 3 48 = true /\ accepted 3 49 = false /\
  accepted 48 3 = true /\ accepted 49 3 = false /\
  accepted 4095 65520 = true /\ accepted 4095 65521 = false /\
  accepted 65520 4095 = true /\ accepted 65521 4095 = false /\
  accepted 65535 65535 = true /\ accepted 65535 4096 = true /\
  accepted 65535 4095 = false.
Proof. vm_compute. repeat split. Qed.

(** The scenario of the 0 by 100 target: no resizer is made. *)
Example NewResizer_0x100_rejected :
  NewResizer {| TargetWidth := 0; TargetHeight := 100; Quality := 100 |}
  = Err (Wrapped InvalidConfig
           (Wrapped DimensionsTooSmall (Plain ErrInvalidDimension))).
Proof. reflexivity. Qed.

(** ** The quality hint *)

Section QualityAnyFloat.
Context {F : Type} `{Float64Ops F}.

(** [Resize] reads the target size of its resizer and nothing else. *)
Lemma Resize_reads_target_only (r1 r2 : Resizer) (src : option Image)
    (t : Trace) :
  TargetWidth (config r1) = TargetWidth (config r2) ->
  TargetHeight (config r1) = TargetHeight (config r2) ->
  Resize r1 src t = Resize r2 src t.
Proof.
  intros Hw Hh. unfold Resize, resizeRGBA, resizeRGBA64, resizeGray,
    resizeGray16, scan.
  rewrite Hw, Hh. reflexivity.
Qed.

End QualityAnyFloat.

Lemma NewResizer_cases (cfg : Config) :
  match ValidateDimensions (TargetWidth cfg) (TargetHeight cfg) with
  | Err e => NewResizer cfg = Err (Wrapped InvalidConfig e)
  | Ok _ =>
      NewResizer cfg
      = Ok {| config := {| TargetWidth := TargetWidth cfg;
                           TargetHeight := TargetHeight cfg;
                           Quality := normal_quality (Quality cfg) |} |}
  end.
Proof.
  unfold NewResizer, normal_quality.
  destruct (ValidateDimensions _ _); [| reflexivity].
  destruct (_ || _); [reflexivity |]. now destruct cfg.
Qed.

(** C10. Two configurations with the same target size: [NewResizer]
    refuses both with the same error or accepts both, whatever their
    qualities are; an accepted quality outside [0, 100] is replaced by 100
    and one inside is kept; and on every instance [Resize] returns the same
    image, error and trace for the two resizers, for any source. *)
Theorem Quality_never_influences (cfg1 cfg2 : Config) :
  TargetWidth cfg1 = TargetWidth cfg2 ->
  TargetHeight cfg1 = TargetHeight cfg2 ->
  (forall e, NewResizer cfg1 = Err e <-> NewResizer cfg2 = Err e) /\
  ((exists r, NewResizer cfg1 = Ok r)
     <-> ValidateDimensions (TargetWidth cfg1) (TargetHeight cfg1) = Ok tt) /\
  (forall r, NewResizer cfg1 = Ok r ->
             TargetWidth (config r) = TargetWidth cfg1 /\
             TargetHeight (config r) = TargetHeight cfg1 /\
             Quality (config r) = normal_quality (Quality cfg1) /\
             0 <= Quality (config r) <= 100) /\
  (forall r1 r2, NewResizer cfg1 = Ok r1 -> NewResizer cfg2 = Ok r2 ->
     forall (F : Type) (ops : Float64Ops F) (src : option Image) (t : Trace),
       Resize (F:=F) r1 src t = Resize (F:=F) r2 src t).
Proof.
  intros Hw Hh.
  pose proof (NewResizer_cases cfg1) as H1.
  pose proof (NewResizer_cases cfg2) as H2.
  rewrite <- Hw, <- Hh in H2. revert H1 H2.
  destruct (ValidateDimensions (TargetWidth cfg1) (TargetHeight cfg1))
    as [[] | e0]; intros H1 H2; rewrite H1, H2.
  - split; [| split; [| split]].
    + intros e. split; discriminate.
    + split; [reflexivity | eauto].
    + intros r [= <-]. cbn [config TargetWidth TargetHeight Quality].
      repeat split; unfold normal_quality;
        destruct (Z.ltb_spec (Quality cfg1) 0); cbn [orb]; try lia;
        destruct (Z.gtb_spec (Quality cfg1) 100); lia.
    + intros r1 r2 [= <-] [= <-] F ops src t.
      now apply Resize_reads_target_only.
  - split; [| split; [| split]].
    + intros e. split; auto.
    + split; [intros [r Hr]; discriminate Hr | discriminate].
    + intros r Hr. discriminate Hr.
    + intros r1 r2 Hr. discriminate Hr.
Qed.

Lemma Quality_never_influences_witness :
  exists r1 r2,
    NewResizer cfg_q50 = Ok r1 /\ NewResizer cfg_q999 = Ok r2 /\
    Quality (config r1) = 50 /\ Quality (config r2) = 100 /\
    Resize (F:=float) r1 (Some gray_4x4) []
    = Resize (F:=float) r2 (Some gray_4x4) [].
Proof.
  do 2 eexists.
  split; [reflexivity |]. split; [reflexivity |].
  split; [reflexivity |]. split; [reflexivity |].
  exact (proj2 (proj2 (proj2
           (Quality_never_influences cfg_q50 cfg_q999 eq_refl eq_refl)))
           _ _ eq_refl eq_refl float F64_ops (Some gray_4x4) []).
Defined.

(** ** Constant windows and constant images *)




(** On binary64 the four taps are rounded: at the offsets the scenario
    meets, and at a few others, their sum is within 2^-45 of 1, and the
    interpolation of a window of 128s is within 2^-40 of 128, which
    [ClampUint8] takes to 128. *)
Example kernel_sum_binary64 :
  let taps (d : float) : float :=
    (CubicWeight (F64.of_int (-1) - d) + CubicWeight (F64.of_int 0 - d)
     + CubicWeight (F64.of_int 1 - d) + CubicWeight (F64.of_int 2 - d))%float in
  let near_one (v : float) : bool :=
    PrimFloat.ltb (PrimFloat.abs (v - 1)%float) 0x1p-45%float in
  near_one (taps 0%float) = true /\ near_one (taps 0.25%float) = true /\
  near_one (taps 0.5%float) = true /\ near_one (taps 0.75%float) = true /\
  near_one (taps 0x1.fffffffffffffp-1%float) = true /\
  match InterpolateBicubic (fun _ _ => 128%float) 0.25%float 0.75%float with
  | Ok v => PrimFloat.ltb (PrimFloat.abs (v - 128)%float) 0x1p-40%float = true
            /\ ClampUint8 v = 128
  | Err _ => False
  end.
Proof. vm_compute. repeat split. Qed.

(** ** The invalid-coordinate error during a resize *)



(** On binary64, at the last pixel of the largest axes and at the two
    extreme scale factors, the center is inside the source and the frame
    is found. *)
Example binary64_edge_centers :
  let center (n size target : Z) : float :=
    ((F64.of_int n + 0.5) * (F64.of_int size / F64.of_int target))%float in
  let inside (n size target : Z) : bool :=
    PrimFloat.leb 0 (center n size target)
    && PrimFloat.ltb (center n size target) (F64.of_int size) in
  inside 65534 65535 65535 = true /\
  inside 65519 4095 65520 = true /\
  inside 4094 65520 4095 = true /\
  inside 0 1 16 = true /\
  CalculateKernelBounds (center 65534 65535 65535) 65535
  = Ok (65533, 65537).
Proof. vm_compute. repeat split. Qed.

(** * Further properties *)

(** ** The kernel: symmetry and range *)

Lemma Qabs_opp_eq (x : Q) : Qabs (- x) = Qabs x.
Proof. destruct x as [n d]. unfold Qabs, Qopp; cbn. now rewrite Z.abs_opp. Qed.

Lemma binary64_abs_opp (x : float) : PrimFloat.abs (- x) = PrimFloat.abs x.
Proof.
  apply Prim2SF_inj. rewrite !abs_spec, opp_spec.
  now destruct (Prim2SF x).
Qed.

(** X1. The weight is an even function: [CubicWeight (-x) = CubicWeight x],
    in exact arithmetic and for every binary64 [x]. *)
Theorem CubicWeight_even :
  (forall x : Q, CubicWeight (- x)%Q = CubicWeight x) /\
  (forall x : float, CubicWeight (- x)%float = CubicWeight x).
Proof.
  split; intros x; unfold CubicWeight; cbn [f_abs Q_ops F64_ops].
  - now rewrite Qabs_opp_eq.
  - now rewrite binary64_abs_opp.
Qed.




(** ** Quantization *)












(** ** Index clamping *)

(** X5. For a positive size (a Go int) [GetSafeIndex] always lands inside
    [0, size), clamping once is as good as clamping twice, and the order of
    two indices is kept. *)
Theorem GetSafeIndex_lands_inside (i j n : Z) :
  int64_range n -> 0 < n ->
  0 <= GetSafeIndex i n < n /\
  GetSafeIndex (GetSafeIndex i n) n = GetSafeIndex i n /\
  (i <= j -> GetSafeIndex i n <= GetSafeIndex j n).
Proof.
  intros Hn Hpos. unfold GetSafeIndex.
  assert (Hw : wrap64 (n - 1) = n - 1).
  { apply wrap64_small. unfold int64_range, min_int64, max_int64 in *. lia. }
  rewrite Hw.
  destruct (Z.ltb_spec i 0); destruct (Z.geb_spec i n);
    destruct (Z.ltb_spec j 0); destruct (Z.geb_spec j n);
    repeat match goal with
    | |- context [(?a <? ?b)] => destruct (Z.ltb_spec a b)
    | |- context [(?a >=? ?b)] => destruct (Z.geb_spec a b)
    end; lia.
Qed.

Lemma GetSafeIndex_lands_inside_witness :
  0 <= GetSafeIndex (-1) 4 < 4 /\
  GetSafeIndex (GetSafeIndex (-1) 4) 4 = GetSafeIndex (-1) 4 /\
  (-1 <= 6 -> GetSafeIndex (-1) 4 <= GetSafeIndex 6 4).
Proof.
  apply (GetSafeIndex_lands_inside (-1) 6 4).
  - unfold int64_range, min_int64, max_int64. lia.
  - lia.
Defined.

(** ** Interpolation as a weighted sum *)






(** ** What a resize does, step by step *)

(** A loop whose successful iterations each add their own events adds the
    events of all of them, in order. *)
Lemma for_each_trace {S} (ev : Z -> list Event) (body : Z -> S -> M S) :
  (forall i s t s' t', body i s t = (Ok s', t') -> t' = rev (ev i) ++ t) ->
  forall idx s t s' t',
    for_each idx body s t = (Ok s', t') -> t' = rev (flat_map ev idx) ++ t.
Proof.
  intros Hbody idx. induction idx as [| i rest IH]; intros s t s' t' Hrun.
  - cbn in Hrun. now injection Hrun as _ <-.
  - cbn [for_each] in Hrun. unfold bind in Hrun.
    destruct (body i s t) as [[s1 | e] t1] eqn:Hstep; [| discriminate].
    apply IH in Hrun. apply Hbody in Hstep. subst t1 t'.
    cbn [flat_map]. now rewrite rev_app_distr, app_assoc.
Qed.

Section TraceAnyFloat.
Context {F : Type} `{Float64Ops F}.

Lemma scan_trace (k : Kind) (sample : F -> F -> result (list Z))
    (r : Resizer) (srcWidth srcHeight : Z) (t t' : Trace) (dst : Buffer) :
  scan k sample r srcWidth srcHeight t = (Ok dst, t') ->
  t' = rev (scan_events k (TargetWidth (config r)) (TargetHeight (config r)))
       ++ t.
Proof.
  unfold scan, bind, lift, emit.
  destruct (ValidateDimensions _ _) as [[] | e]; [| discriminate].
  intros Hrun.
  apply (for_each_trace (row_events (TargetWidth (config r)))) in Hrun.
  - subst t'. unfold scan_events. cbn [rev]. now rewrite <- app_assoc.
  - intros y s t0 s' t0' Hrow.
    apply (for_each_trace (pixel_events y)) in Hrow; [exact Hrow |].
    intros x s1 t1 s1' t1'. unfold bind, emit, fail, ret.
    destruct (sample _ _); [| discriminate].
    now intros [= _ <-].
Qed.

End TraceAnyFloat.

Lemma flat_map_length_const {A B} (f : A -> list B) (l : list A) (n : nat) :
  (forall a, length (f a) = n) -> length (flat_map f l) = (length l * n)%nat.
Proof.
  intros Hf. induction l as [| a l IH]; [reflexivity |].
  cbn [flat_map length]. rewrite length_app, Hf, IH. lia.
Qed.

Lemma range_length (n : Z) : length (range n) = Z.to_nat n.
Proof. unfold range. now rewrite length_map, length_seq. Qed.

(** X8. On every instance a [Resize] that returns no error has done, in
    this order and nothing else: one allocation of the target size, then for
    every row from the top and every pixel of the row from the left one
    sampling and one write; two events per destination pixel. *)
Theorem Resize_scans_row_by_row (F : Type) (ops : Float64Ops F)
    (r : Resizer) (src : Image) (t t' : Trace) (img : ImageValue) :
  Resize (F:=F) r (Some src) t = ((img, None), t') ->
  let tw := TargetWidth (config r) in
  let th := TargetHeight (config r) in
  t' = rev (scan_events (kind_of_model (Model src)) tw th) ++ t /\
  length (scan_events (kind_of_model (Model src)) tw th)
  = S (2 * Z.to_nat (tw * th)).
Proof.
  intros Hrun tw th. split.
  - revert Hrun. unfold Resize. cbv zeta.
    destruct (ValidateDimensions (Dx _) _); [| discriminate].
    destruct (ValidateResizeRatio _ _ _ _); [| discriminate].
    assert (Hscan : forall k sample,
               as_image k (scan k sample r (Dx (Bounds src)) (Dy (Bounds src))) t
               = ((img, None), t') ->
               t' = rev (scan_events k tw th) ++ t).
    { intros k sample. unfold as_image.
      destruct (scan k sample r _ _ t) as [[dst | e] t1] eqn:Hscan;
        [| discriminate].
      intros [= _ <-]. eapply scan_trace; eassumption. }
    unfold resizeRGBA, resizeRGBA64, resizeGray, resizeGray16.
    destruct (Model src); cbn [kind_of_model]; apply Hscan.
  - destruct (Resize_success_frame r src t t' img Hrun) as (_ & _ & Hv & _).
    apply ValidateDimensions_ok in Hv as [Hw Hh]. fold tw th in Hw, Hh.
    unfold scan_events. cbn [length]. f_equal.
    rewrite (flat_map_length_const _ _ (2 * Z.to_nat tw)).
    + rewrite range_length. unfold dimension_ok in *.
      rewrite Z2Nat.inj_mul by lia. lia.
    + intros y. unfold row_events.
      rewrite (flat_map_length_const _ _ 2) by reflexivity.
      rewrite range_length. lia.
Qed.

Lemma Resize_scans_row_by_row_witness :
  snd (Resize (F:=float) to_8x8 (Some gray_4x4) [])
  = rev (scan_events KGray 8 8) ++ [] /\
  length (scan_events KGray 8 8) = 129%nat.
Proof.
  apply (Resize_scans_row_by_row float F64_ops to_8x8 gray_4x4 []
           (snd (Resize (F:=float) to_8x8 (Some gray_4x4) []))
           (fst (fst (Resize (F:=float) to_8x8 (Some gray_4x4) [])))).
  vm_compute. reflexivity.
Defined.

(** ** The pixels of the output *)

Lemma set_nth_same {A} (n : nat) (v : A) (l : list A) :
  (n < length l)%nat -> nth_error (set_nth n v l) n = Some v.
Proof.
  revert n. induction l as [| h t IH]; intros [| n] Hn; cbn in *; try lia.
  - reflexivity.
  - apply IH. lia.
Qed.

Lemma set_nth_other {A} (n i : nat) (v : A) (l : list A) :
  i <> n -> nth_error (set_nth n v l) i = nth_error l i.
Proof.
  revert n i. induction l as [| h t IH]; intros [| n] [| i] Hne; cbn;
    try reflexivity; try congruence.
  apply IH. congruence.
Qed.

(** A counting loop with a property that depends on the count. *)
Lemma for_each_counted {St} (P : Z -> St -> Prop) (body : Z -> St -> M St)
    (n : Z) :
  (forall i s t s' t',
      0 <= i < n -> P i s -> body i s t = (Ok s', t') -> P (i + 1) s') ->
  forall s t s' t',
    0 <= n -> P 0 s -> for_each (range n) body s t = (Ok s', t') -> P n s'.
Proof.
  intros Hbody s t s' t' Hn.
  assert (Hgen : forall len a s t,
             Z.of_nat (a + len) <= n ->
             P (Z.of_nat a) s ->
             for_each (map Z.of_nat (seq a len)) body s t = (Ok s', t') ->
             P (Z.of_nat (a + len)) s').
  { induction len as [| len IH]; intros a s0 t0 Hle Hs Hrun.
    - cbn in Hrun. injection Hrun as <- _. now rewrite Nat.add_0_r.
    - cbn [seq map for_each] in Hrun. unfold bind in Hrun.
      destruct (body (Z.of_nat a) s0 t0) as [[s1 | e] t1] eqn:Hstep;
        [| discriminate].
      replace (a + S len)%nat with (S a + len)%nat by lia.
      apply IH with (s := s1) (t := t1); [lia | | exact Hrun].
      replace (Z.of_nat (S a)) with (Z.of_nat a + 1) by lia.
      eapply Hbody; [| exact Hs | exact Hstep]. lia. }
  intros H0 Hrun.
  pose proof (Hgen (Z.to_nat n) 0%nat s t) as Hg.
  rewrite Nat.add_0_l, Z2Nat.id in Hg by exact Hn.
  apply Hg; [lia | exact H0 | exact Hrun].
Qed.

Lemma row_major_unique (tw x y x' y' : Z) :
  0 <= x < tw -> 0 <= x' < tw -> y * tw + x = y' * tw + x' ->
  y = y' /\ x = x'.
Proof.
  intros Hx Hx' Heq.
  assert (Hy : y = y').
  { destruct (Z.lt_trichotomy y y') as [Hlt | [Heq' | Hgt]]; [| exact Heq' |].
    - assert (y * tw + tw <= y' * tw) by nia. lia.
    - assert (y' * tw + tw <= y * tw) by nia. lia. }
  subst y'. split; [reflexivity | lia].
Qed.

Lemma SetPixel_fills (tw th : Z) (value : Z -> Z -> list Z -> Prop)
    (s : Buffer) (x y : Z) (px : list Z) :
  dimension_ok tw -> dimension_ok th ->
  0 <= x < tw -> 0 <= y < th ->
  Rect s = Rect0 tw th -> length (Pix s) = Z.to_nat (tw * th) ->
  value x y px ->
  filled tw value (y * tw + x) s ->
  filled tw value (y * tw + x + 1) (SetPixel s x y px).
Proof.
  intros Htw Hth Hx Hy Hrect Hlen Hval Hfilled.
  destruct (Rect0_size tw th Htw Hth) as [Hdx _].
  unfold SetPixel. rewrite Hrect.
  assert (Hin : In_rect x y (Rect0 tw th) = true).
  { unfold In_rect, Rect0; cbn.
    rewrite !andb_true_iff, !Z.leb_le, !Z.ltb_lt. lia. }
  rewrite Hin, Hdx. cbn [Rect0 MinX MinY]. rewrite !Z.sub_0_r.
  intros x' y' Hx' Hy' Hlt. cbn [Pix]. unfold pixel_index.
  destruct (Z.eq_dec (y' * tw + x') (y * tw + x)) as [Heq | Hne].
  - destruct (row_major_unique tw x' y' x y Hx' Hx Heq) as [-> ->].
    exists px. split; [exact Hval |].
    apply set_nth_same. rewrite Hlen. unfold dimension_ok in *. nia.
  - destruct (Hfilled x' y' Hx' Hy') as (px' & Hv' & Hnth); [lia |].
    exists px'. split; [exact Hv' |].
    rewrite set_nth_other; [exact Hnth |]. unfold pixel_index in *.
    intros Heq. apply Hne. nia.
Qed.

Section PixelsAnyFloat.
Context {F : Type} `{Float64Ops F}.

(** After a scan without an error every destination pixel holds what the
    sampler returned at the center of that pixel. *)
Lemma scan_pixels (k : Kind) (sample : F -> F -> result (list Z))
    (r : Resizer) (srcWidth srcHeight : Z) (t t' : Trace) (dst : Buffer) :
  let tw := TargetWidth (config r) in
  let th := TargetHeight (config r) in
  scan k sample r srcWidth srcHeight t = (Ok dst, t') ->
  forall x y, 0 <= x < tw -> 0 <= y < th ->
    exists px,
      sample (source_center x srcWidth tw) (source_center y srcHeight th) = Ok px /\
      nth_error (Pix dst) (pixel_index tw x y) = Some px.
Proof.
  intros tw th Hrun.
  destruct (scan_frame k sample r srcWidth srcHeight t t' dst Hrun)
    as (Hv & _).
  apply ValidateDimensions_ok in Hv as [Htw Hth]. fold tw th in Htw, Hth.
  set (value := fun x y px =>
         sample (source_center x srcWidth tw) (source_center y srcHeight th)
         = Ok px).
  set (framed := fun s : Buffer =>
         Rect s = Rect0 tw th /\ length (Pix s) = Z.to_nat (tw * th)).
  assert (Hfinal : framed dst /\ filled tw value (th * tw) dst).
  { revert Hrun. unfold scan, bind, lift, emit. fold tw th.
    destruct (ValidateDimensions tw th) as [[] | e]; [| discriminate].
    apply (for_each_counted
             (fun y s => framed s /\ filled tw value (y * tw) s)).
    - intros y s t0 s' t0' Hy [Hfr Hfill].
      replace ((y + 1) * tw) with (y * tw + tw) by ring.
      apply (for_each_counted
               (fun x s => framed s /\ filled tw value (y * tw + x) s)).
      + intros x s1 t1 s1' t1' Hx [[Hrect Hlen] Hfill1].
        unfold bind, emit, fail, ret.
        destruct (sample _ _) as [px |] eqn:Hs; [| discriminate].
        intros [= <- _]. split.
        * destruct (SetPixel_frame s1 x y px) as (_ & Hr' & Hl').
          split; congruence.
        * rewrite Z.add_assoc.
          apply SetPixel_fills with (th := th); auto.
      + unfold dimension_ok in Htw. lia.
      + split; [exact Hfr |]. now rewrite Z.add_0_r.
    - unfold dimension_ok in Hth. lia.
    - split.
      + split; [reflexivity | now apply NewBuffer_length].
      + intros x y Hx Hy Hlt. nia. }
  destruct Hfinal as [_ Hfill].
  intros x y Hx Hy. apply Hfill; [exact Hx | lia |]. nia.
Qed.

End PixelsAnyFloat.

Section SamplerAnyFloat.
Context {F : Type} `{Float64Ops F}.

Lemma Resize_is_scan (r : Resizer) (src : Image) (t t' : Trace)
    (img : ImageValue) :
  Resize r (Some src) t = ((img, None), t') ->
  exists dst,
    img = Pointer (kind_of_model (Model src)) (Some dst) /\
    scan (kind_of_model (Model src))
         (fun x y => sampler (Model src) src x y
                       (Dx (Bounds src)) (Dy (Bounds src)))
         r (Dx (Bounds src)) (Dy (Bounds src)) t = (Ok dst, t').
Proof.
  unfold Resize. cbv zeta.
  destruct (ValidateDimensions (Dx _) _); [| discriminate].
  destruct (ValidateResizeRatio _ _ _ _); [| discriminate].
  unfold resizeRGBA, resizeRGBA64, resizeGray, resizeGray16, sampler.
  destruct (Model src); cbn [kind_of_model]; unfold as_image;
    match goal with
    | |- context [scan ?k ?s r ?w ?h t] =>
        destruct (scan k s r w h t) as [[dst | e] t1]; [| discriminate]
    end;
    intros [= <- <-]; exists dst; split; reflexivity.
Qed.

Lemma sampler_pixel_ok (m : ColorModel) (src : Image) (x y : F)
    (width height : Z) (px : list Z) :
  sampler m src x y width height = Ok px -> pixel_ok (kind_of_model m) px.
Proof.
  unfold sampler, sampleRGBA, sampleRGBA64, sampleGray, sampleGray16, pixel_ok.
  destruct (kernel_frame x y width height)
    as [[[[[[sx ex] sy] ey] dx] dy] | e0];
    [| destruct (kind_of_model m); discriminate].
  cbv zeta.
  destruct (kind_of_model m); cbn [channels channel_max];
    repeat match goal with
    | |- context [InterpolateBicubic ?p ?a ?b] =>
        destruct (InterpolateBicubic p a b); [| discriminate]
    end;
    intros [= <-]; (split; [reflexivity |]);
    repeat constructor;
    first [apply ClampUint8_in_range | apply ClampUint16_in_range].
Qed.

End SamplerAnyFloat.

(** X9. On every instance, after a [Resize] without an error each
    destination pixel (x, y) holds exactly what the sampler of the source's
    colour model returns at the center of that pixel: it depends on the
    source and on (x, y), on no other destination pixel. *)
Theorem Resize_pixel_by_pixel (F : Type) (ops : Float64Ops F)
    (r : Resizer) (src : Image) (t t' : Trace) (img : ImageValue) :
  Resize (F:=F) r (Some src) t = ((img, None), t') ->
  let tw := TargetWidth (config r) in
  let th := TargetHeight (config r) in
  exists dst,
    img = Pointer (kind_of_model (Model src)) (Some dst) /\
    forall x y, 0 <= x < tw -> 0 <= y < th ->
      exists px,
        sampler (Model src) src
          (source_center x (Dx (Bounds src)) tw)
          (source_center y (Dy (Bounds src)) th)
          (Dx (Bounds src)) (Dy (Bounds src)) = Ok px /\
        nth_error (Pix dst) (pixel_index tw x y) = Some px.
Proof.
  intros Hrun tw th.
  destruct (Resize_is_scan r src t t' img Hrun) as (dst & -> & Hscan).
  exists dst. split; [reflexivity |].
  exact (scan_pixels _ _ r _ _ t t' dst Hscan).
Qed.

Lemma Resize_pixel_by_pixel_witness :
  exists dst,
    fst (fst (Resize (F:=float) to_8x8 (Some gray_4x4) []))
    = Pointer KGray (Some dst) /\
    exists px,
      sampler GrayModel gray_4x4
        (source_center (F:=float) 7 4 8) (source_center (F:=float) 0 4 8) 4 4
      = Ok px /\
      nth_error (Pix dst) (pixel_index 8 7 0) = Some px.
Proof.
  destruct (Resize_pixel_by_pixel float F64_ops to_8x8 gray_4x4 []
              (snd (Resize (F:=float) to_8x8 (Some gray_4x4) []))
              (fst (fst (Resize (F:=float) to_8x8 (Some gray_4x4) []))))
    as (dst & Himg & Hpix); [vm_compute; reflexivity |].
  exists dst. split; [exact Himg |].
  apply (Hpix 7 0); cbn; lia.
Defined.

(** Every place of a buffer of [tw * th] pixels is the place of a point. *)
Lemma pixel_index_onto (tw th : Z) (i : nat) :
  0 < tw -> 0 <= th -> (i < Z.to_nat (tw * th))%nat ->
  exists x y, 0 <= x < tw /\ 0 <= y < th /\ pixel_index tw x y = i.
Proof.
  intros Htw Hth Hi.
  exists (Z.of_nat i mod tw), (Z.of_nat i / tw).
  pose proof (Z.mod_pos_bound (Z.of_nat i) tw Htw) as Hm.
  pose proof (Z.div_mod (Z.of_nat i) tw ltac:(lia)) as Hdm.
  assert (Hq : 0 <= Z.of_nat i / tw) by (apply Z.div_pos; lia).
  split; [exact Hm |]. split.
  - split; [exact Hq |]. apply Z.div_lt_upper_bound; [exact Htw |].
    assert (0 <= tw * th) by nia. lia.
  - unfold pixel_index. rewrite (Z.mul_comm _ tw), <- Hdm. lia.
Qed.

(** X10. On every instance the buffer a [Resize] returns without an error
    is well formed: it has one pixel per point of the target, each pixel has
    the channels of its kind (four for the colour types, one for the gray
    ones) and each channel lies within the depth (at most 255 for the 8-bit
    types, 65535 for the 16-bit ones). *)
Theorem Resize_output_well_formed (F : Type) (ops : Float64Ops F)
    (r : Resizer) (src : Image) (t t' : Trace) (img : ImageValue) :
  Resize (F:=F) r (Some src) t = ((img, None), t') ->
  exists dst,
    img = Pointer (kind_of_model (Model src)) (Some dst) /\
    length (Pix dst)
    = Z.to_nat (TargetWidth (config r) * TargetHeight (config r)) /\
    Forall (pixel_ok (kind_of_model (Model src))) (Pix dst).
Proof.
  intros Hrun.
  destruct (Resize_success_frame r src t t' img Hrun)
    as (dst0 & Himg0 & Hv & _ & _ & Hlen).
  apply ValidateDimensions_ok in Hv as [Htw Hth].
  destruct (Resize_is_scan r src t t' img Hrun) as (dst & Himg & Hscan).
  assert (dst0 = dst) by congruence. subst dst0.
  rewrite NewBuffer_length in Hlen by assumption.
  exists dst. split; [exact Himg |]. split; [exact Hlen |].
  apply Forall_forall. intros px Hin.
  apply In_nth_error in Hin as [i Hnth].
  assert (Hi : (i < Z.to_nat (TargetWidth (config r) * TargetHeight (config r)))%nat).
  { rewrite <- Hlen. apply nth_error_Some. congruence. }
  assert (Hw0 : 0 < TargetWidth (config r)) by (unfold dimension_ok in *; lia).
  assert (Hh0 : 0 <= TargetHeight (config r)) by (unfold dimension_ok in *; lia).
  destruct (pixel_index_onto _ _ i Hw0 Hh0 Hi) as (x & y & Hx & Hy & Hidx).
  destruct (scan_pixels _ _ r _ _ t t' dst Hscan x y Hx Hy)
    as (px' & Hs & Hnth').
  rewrite Hidx, Hnth in Hnth'. injection Hnth' as <-.
  eapply sampler_pixel_ok. exact Hs.
Qed.

Lemma Resize_output_well_formed_witness :
  exists dst,
    fst (fst (Resize (F:=float) to_8x8 (Some gray_4x4) []))
    = Pointer KGray (Some dst) /\
    length (Pix dst) = 64%nat /\ Forall (pixel_ok KGray) (Pix dst).
Proof.
  apply (Resize_output_well_formed float F64_ops to_8x8 gray_4x4 []
           (snd (Resize (F:=float) to_8x8 (Some gray_4x4) []))
           (fst (fst (Resize (F:=float) to_8x8 (Some gray_4x4) [])))).
  vm_compute. reflexivity.
Defined.

(** ** What a resize reads *)

Lemma for_each_ext {St} (body1 body2 : Z -> St -> M St) (idx : list Z) :
  (forall i s t, body1 i s t = body2 i s t) ->
  forall s t, for_each idx body1 s t = for_each idx body2 s t.
Proof.
  intros Hbody. induction idx as [| i rest IH]; intros s t; [reflexivity |].
  cbn [for_each]. unfold bind. rewrite Hbody.
  destruct (body2 i s t) as [[s1 | e] t1]; [apply IH | reflexivity].
Qed.

Section ReadsAnyFloat.
Context {F : Type} `{Float64Ops F}.

Lemma row_sum_ext (row1 row2 : Z -> F) (dx : F) (is_ : list Z) (acc : F) :
  (forall i, row1 i = row2 i) ->
  row_sum row1 dx is_ acc = row_sum row2 dx is_ acc.
Proof.
  intros Hrow. revert acc. induction is_ as [| i rest IH]; intros acc;
    [reflexivity |].
  cbn [row_sum]. rewrite Hrow. apply IH.
Qed.

Lemma col_sum_ext (p q : Pixels (F:=F)) (dx dy : F) (js : list Z) (acc : F) :
  same_window p q -> col_sum p dx dy js acc = col_sum q dx dy js acc.
Proof.
  intros Hpq. revert acc. induction js as [| j rest IH]; intros acc;
    [reflexivity |].
  cbn [col_sum]. rewrite (row_sum_ext (p j) (q j)) by (intros i; apply Hpq).
  apply IH.
Qed.

Lemma InterpolateBicubic_ext (p q : Pixels (F:=F)) (dx dy : F) :
  same_window p q -> InterpolateBicubic p dx dy = InterpolateBicubic q dx dy.
Proof.
  intros Hpq. unfold InterpolateBicubic.
  now rewrite (col_sum_ext p q) by exact Hpq.
Qed.

Lemma store_ext (p q : Pixels (F:=F)) (ky kx : Z) (v : F) :
  same_window p q -> same_window (store p ky kx v) (store q ky kx v).
Proof.
  intros Hpq j i. unfold store. destruct (_ && _); [reflexivity | apply Hpq].
Qed.

Lemma GetSafeIndex_inside (i n : Z) :
  dimension_ok n -> 0 <= GetSafeIndex i n < n.
Proof.
  intros Hn. unfold GetSafeIndex, dimension_ok in *.
  rewrite wrap64_small by (unfold int64_range, min_int64, max_int64; lia).
  destruct (Z.ltb_spec i 0); [lia |]. destruct (Z.geb_spec i n); lia.
Qed.

Lemma gather_row_ext (a b : Image) (conv : RGBA32 -> F) (width height : Z)
    (safeY ky : Z) (xs : list Z) (kx : Z) (p q : Pixels (F:=F)) :
  dimension_ok width -> 0 <= safeY < height ->
  same_pixels width height a b -> same_window p q ->
  same_window (gather_row a conv width safeY ky xs kx p)
              (gather_row b conv width safeY ky xs kx q).
Proof.
  intros Hw Hy Hab. revert kx p q.
  induction xs as [| x rest IH]; intros kx p q Hpq; [exact Hpq |].
  cbn [gather_row]. apply IH.
  rewrite (Hab (GetSafeIndex x width) safeY)
    by (try apply GetSafeIndex_inside; assumption).
  now apply store_ext.
Qed.

Lemma gather_rows_ext (a b : Image) (conv : RGBA32 -> F) (width height : Z)
    (xs ys : list Z) (ky : Z) (p q : Pixels (F:=F)) :
  dimension_ok width -> dimension_ok height ->
  same_pixels width height a b -> same_window p q ->
  same_window (gather_rows a conv width height xs ys ky p)
              (gather_rows b conv width height xs ys ky q).
Proof.
  intros Hw Hh Hab. revert ky p q.
  induction ys as [| y rest IH]; intros ky p q Hpq; [exact Hpq |].
  cbn [gather_rows]. apply IH.
  apply gather_row_ext with (height := height); auto.
  now apply GetSafeIndex_inside.
Qed.

Lemma gather_ext (a b : Image) (conv : RGBA32 -> F) (width height : Z)
    (sx ex sy ey : Z) :
  dimension_ok width -> dimension_ok height ->
  same_pixels width height a b ->
  same_window (gather a conv width height sx ex sy ey)
              (gather b conv width height sx ex sy ey).
Proof.
  intros Hw Hh Hab. unfold gather.
  apply gather_rows_ext; auto. intros j i. reflexivity.
Qed.

(** The samplers read a source only inside [0, width) x [0, height). *)
Lemma sampler_ext (m : ColorModel) (a b : Image) (x y : F) (width height : Z) :
  dimension_ok width -> dimension_ok height ->
  same_pixels width height a b ->
  sampler m a x y width height = sampler m b x y width height.
Proof.
  intros Hw Hh Hab.
  unfold sampler, sampleRGBA, sampleRGBA64, sampleGray, sampleGray16.
  destruct (kernel_frame x y width height)
    as [[[[[[sx ex] sy] ey] dx] dy] | e0]; [| reflexivity].
  cbv zeta.
  destruct (kind_of_model m);
    repeat match goal with
    | |- context [InterpolateBicubic (gather a ?c ?w ?h ?x0 ?x1 ?y0 ?y1) ?u ?v] =>
        rewrite (InterpolateBicubic_ext
                   (gather a c w h x0 x1 y0 y1) (gather b c w h x0 x1 y0 y1) u v)
          by (apply gather_ext; assumption)
    end; reflexivity.
Qed.

Lemma scan_ext (k : Kind) (sample1 sample2 : F -> F -> result (list Z))
    (r : Resizer) (srcWidth srcHeight : Z) (t : Trace) :
  (forall x y, sample1 x y = sample2 x y) ->
  scan k sample1 r srcWidth srcHeight t = scan k sample2 r srcWidth srcHeight t.
Proof.
  intros Hs. unfold scan, bind, lift, emit.
  destruct (ValidateDimensions _ _) as [[] | e]; [| reflexivity].
  apply for_each_ext. intros y s t0.
  apply for_each_ext. intros x s1 t1.
  unfold bind, emit. now rewrite Hs.
Qed.

End ReadsAnyFloat.

(** X11. On every instance [Resize] reads its source only through the
    size and the colour model of the source and through the pixels at the
    points (x, y) with [0 <= x < width] and [0 <= y < height], whatever the
    origin of the source's bounds: two sources that agree there give the
    same image, error and trace. *)
Theorem Resize_reads_the_origin_box (F : Type) (ops : Float64Ops F)
    (r : Resizer) (a b : Image) (t : Trace) :
  Dx (Bounds a) = Dx (Bounds b) -> Dy (Bounds a) = Dy (Bounds b) ->
  Model a = Model b ->
  same_pixels (Dx (Bounds a)) (Dy (Bounds a)) a b ->
  Resize (F:=F) r (Some a) t = Resize (F:=F) r (Some b) t.
Proof.
  intros Hdx Hdy Hm Hab. unfold Resize. cbv zeta.
  rewrite <- Hdx, <- Hdy, <- Hm.
  destruct (ValidateDimensions (Dx (Bounds a)) (Dy (Bounds a)))
    as [[] | e1] eqn:Hv; [| reflexivity].
  apply ValidateDimensions_ok in Hv as [Hw Hh].
  destruct (ValidateResizeRatio _ _ _ _) as [[] | e2]; [| reflexivity].
  assert (Hs : forall x y,
             sampler (Model a) a x y (Dx (Bounds a)) (Dy (Bounds a))
             = sampler (Model a) b x y (Dx (Bounds a)) (Dy (Bounds a)))
    by (intros x y; now apply sampler_ext).
  unfold resizeRGBA, resizeRGBA64, resizeGray, resizeGray16.
  unfold sampler in Hs.
  destruct (Model a); cbn [kind_of_model] in Hs; unfold as_image;
    rewrite (scan_ext _ _ _ r _ _ t Hs); reflexivity.
Qed.

Lemma Resize_reads_the_origin_box_witness :
  Resize (F:=float) to_8x8 (Some gray_4x4) []
  = Resize (F:=float) to_8x8 (Some gray_4x4_shifted) [].
Proof.
  apply (Resize_reads_the_origin_box float F64_ops to_8x8
           gray_4x4 gray_4x4_shifted []); try reflexivity.
  intros x y Hx Hy. cbn in Hx, Hy |- *.
  assert (Hin : In_rect x y (Rect0 4 4) = true).
  { unfold In_rect, Rect0; cbn.
    rewrite !andb_true_iff, !Z.leb_le, !Z.ltb_lt.
    change (wrap64 (4 - 0)) with 4 in Hx, Hy. lia. }
  now rewrite Hin.
Defined.

(** ** The errors of a resize *)

Lemma Sentinel_eq_dec (a b : Sentinel) : {a = b} + {a <> b}.
Proof. decide equality. Qed.

Section FailuresAnyFloat.
Context {F : Type} `{Float64Ops F}.

(** A scan that returns an error failed the validation of its target or
    got the error from its sampler at one destination pixel. *)
Lemma scan_failure (k : Kind) (sample : F -> F -> result (list Z))
    (r : Resizer) (srcWidth srcHeight : Z) (t t' : Trace) (e : Error) :
  let tw := TargetWidth (config r) in
  let th := TargetHeight (config r) in
  scan k sample r srcWidth srcHeight t = (Err e, t') ->
  ValidateDimensions tw th = Err e \/
  exists x y e0,
    0 <= x < tw /\ 0 <= y < th /\
    sample (source_center x srcWidth tw) (source_center y srcHeight th)
    = Err e0 /\
    e = Wrapped (SamplingFailedAt x y) e0.
Proof.
  intros tw th. unfold scan, bind, lift, emit. fold tw th.
  destruct (ValidateDimensions tw th) as [[] | e1];
    [| intros [= <- _]; now left].
  intros Hrun. right.
  apply for_each_error in Hrun as (y & s0 & t0 & Hy & Hrow).
  apply for_each_error in Hrow as (x & s1 & t1 & Hx & Hpix).
  apply In_range in Hx, Hy.
  unfold bind, emit, fail, ret in Hpix.
  destruct (sample _ _) as [px | e0] eqn:Hs; [discriminate |].
  injection Hpix as <- _. exists x, y, e0. auto.
Qed.

End FailuresAnyFloat.

(** X12. On every instance an error of [Resize] is one of three kinds: the
    nil-image error for a nil source; a configuration error, rooted at
    [ErrInvalidDimension]; or the error of a sampler (invalid coordinate or
    invalid channel) wrapped with the destination pixel where it happened.
    The first two come with the nil interface and an unchanged trace; the
    third comes with an interface that is not nil: it holds the nil pointer
    of the path's buffer type. *)
Theorem Resize_errors (F : Type) (ops : Float64Ops F)
    (r : Resizer) (src : option Image) (t t' : Trace)
    (img : ImageValue) (e : Error) :
  Resize (F:=F) r src t = ((img, Some e), t') ->
  error_kind r src t t' img e.
Proof.
  unfold error_kind.
  destruct src as [s |]; [| intros [= <- <- <-]; left; auto].
  intros Hrun. right.
  destruct (Sentinel_eq_dec (root e) ErrInvalidDimension) as [Hroot | Hroot].
  { left. exists s.
    destruct (Resize_dimension_error r s t t' img e Hrun Hroot) as (-> & -> & _).
    auto. }
  right. revert Hrun. unfold Resize. cbv zeta.
  destruct (ValidateDimensions (Dx (Bounds s)) (Dy (Bounds s)))
    as [[] | e1] eqn:Hv1.
  2:{ intros [= _ <- _]. exfalso. apply Hroot. cbn [root].
      eapply ValidateDimensions_error; eassumption. }
  destruct (ValidateResizeRatio _ _ _ _) as [[] | e2] eqn:Hv2.
  2:{ intros [= _ <- _]. exfalso. apply Hroot. cbn [root].
      eapply ValidateResizeRatio_error; eassumption. }
  assert (Hscan : forall k sample,
             as_image k (scan k sample r (Dx (Bounds s)) (Dy (Bounds s))) t
             = ((img, Some e), t') ->
             img = Pointer k None /\
             exists x y e0,
               0 <= x < TargetWidth (config r) /\
               0 <= y < TargetHeight (config r) /\
               sample (source_center x (Dx (Bounds s)) (TargetWidth (config r)))
                      (source_center y (Dy (Bounds s)) (TargetHeight (config r)))
               = Err e0 /\
               e = Wrapped (SamplingFailedAt x y) e0).
  { intros k sample. unfold as_image.
    destruct (scan k sample r _ _ t) as [[dst | e0] t1] eqn:Hrun;
      [discriminate |].
    intros [= <- <- <-]. split; [reflexivity |].
    apply scan_failure in Hrun as [Hbad | Hpix]; [| exact Hpix].
    exfalso. apply Hroot. eapply ValidateDimensions_error; eassumption. }
  unfold resizeRGBA, resizeRGBA64, resizeGray, resizeGray16.
  intros Hrun.
  assert (Hcase :
            img = Pointer (kind_of_model (Model s)) None /\
            exists x y e0,
              0 <= x < TargetWidth (config r) /\
              0 <= y < TargetHeight (config r) /\
              sampler (Model s) s
                (source_center x (Dx (Bounds s)) (TargetWidth (config r)))
                (source_center y (Dy (Bounds s)) (TargetHeight (config r)))
                (Dx (Bounds s)) (Dy (Bounds s)) = Err e0 /\
              e = Wrapped (SamplingFailedAt x y) e0).
  { unfold sampler. destruct (Model s); cbn [kind_of_model];
      apply (Hscan _ _ Hrun). }
  destruct Hcase as (-> & x & y & e0 & Hx & Hy & Hs & ->).
  exists s, x, y, e0. repeat (split; [first [reflexivity | assumption] |]).
  split; [| split; [exact Hs | reflexivity]].
  unfold sampler in Hs.
  apply (samplers_error s
           (source_center x (Dx (Bounds s)) (TargetWidth (config r)))
           (source_center y (Dy (Bounds s)) (TargetHeight (config r)))
           (Dx (Bounds s)) (Dy (Bounds s)) e0).
  destruct (kind_of_model (Model s)); tauto.
Qed.

Lemma Resize_errors_witness :
  error_kind (F:=float) to_8x8 None [] [] NilInterface (Plain ErrNilImage) /\
  exists e,
    error_kind (F:=float) to_170x170 (Some src_10x10) [] [] NilInterface e.
Proof.
  split.
  - apply (Resize_errors float F64_ops to_8x8 None [] []). reflexivity.
  - eexists.
    apply (Resize_errors float F64_ops to_170x170 (Some src_10x10) [] []).
    vm_compute. reflexivity.
Defined.

(** ** Flat images *)











(** ** The validators, check by check *)

(** The three answers of [ValidateDimensions] and when each is given. *)
Lemma ValidateDimensions_cases (a b : Z) :
  (a < 1 \/ b < 1) /\
  ValidateDimensions a b
  = Err (Wrapped DimensionsTooSmall (Plain ErrInvalidDimension)) \/
  (1 <= a /\ 1 <= b /\ (65535 < a \/ 65535 < b)) /\
  ValidateDimensions a b
  = Err (Wrapped DimensionsTooLarge (Plain ErrInvalidDimension)) \/
  (dimension_ok a /\ dimension_ok b) /\ ValidateDimensions a b = Ok tt.
Proof.
  destruct (Z_lt_dec a 1) as [Ha | Ha]; [left |].
  { split; [now left |]. unfold ValidateDimensions, MinImageDimension.
    destruct (Z.ltb_spec a 1); [reflexivity | lia]. }
  destruct (Z_lt_dec b 1) as [Hb | Hb]; [left |].
  { split; [now right |]. unfold ValidateDimensions, MinImageDimension.
    destruct (Z.ltb_spec b 1); [now rewrite orb_true_r | lia]. }
  right.
  assert (Hmin : (a <? MinImageDimension) || (b <? MinImageDimension) = false).
  { unfold MinImageDimension.
    destruct (Z.ltb_spec a 1), (Z.ltb_spec b 1); cbn; reflexivity || lia. }
  destruct (Z_lt_dec 65535 a) as [Ha' | Ha'];
    [| destruct (Z_lt_dec 65535 b) as [Hb' | Hb']].
  - left. split; [lia |]. unfold ValidateDimensions. rewrite Hmin.
    unfold MaxImageDimension.
    destruct (Z.gtb_spec a 65535); [reflexivity | lia].
  - left. split; [lia |]. unfold ValidateDimensions. rewrite Hmin.
    unfold MaxImageDimension.
    destruct (Z.gtb_spec b 65535); [now rewrite orb_true_r | lia].
  - right.
    assert (Hok : dimension_ok a /\ dimension_ok b)
      by (unfold dimension_ok; lia).
    split; [exact Hok |]. now apply ValidateDimensions_ok.
Qed.

(** X14. [ValidateDimensions] has three checks and only two of them can
    fire: an error is the one of the minimum or the one of the maximum, the
    check of the total number of pixels never refuses anything (two
    dimensions that passed the first two checks have a product of at most
    65535 * 65535). The minimum is tested first, so a request with one
    dimension too small and the other too large is reported as too small;
    and the answer does not depend on which of the two is the width. *)
Theorem ValidateDimensions_two_live_checks (w h : Z) :
  (ValidateDimensions w h
   = Err (Wrapped DimensionsTooSmall (Plain ErrInvalidDimension))
   <-> w < 1 \/ h < 1) /\
  (ValidateDimensions w h
   = Err (Wrapped DimensionsTooLarge (Plain ErrInvalidDimension))
   <-> 1 <= w /\ 1 <= h /\ (65535 < w \/ 65535 < h)) /\
  (forall e, ValidateDimensions w h = Err e ->
     e <> Wrapped TotalPixelsExceedLimit (Plain ErrInvalidDimension)) /\
  ValidateDimensions h w = ValidateDimensions w h.
Proof.
  pose proof ValidateDimensions_cases as Hcases.
  split; [| split; [| split]].
  - destruct (Hcases w h) as [[Hc ->] | [[Hc ->] | [[Hc1 Hc2] ->]]];
      (split; [intros [=] || (intros _; exact Hc) | intros Hs; try reflexivity]);
      unfold dimension_ok in *; lia.
  - destruct (Hcases w h) as [[Hc ->] | [[Hc ->] | [[Hc1 Hc2] ->]]];
      (split; [intros [=] || (intros _; exact Hc) | intros Hs; try reflexivity]);
      unfold dimension_ok in *; lia.
  - intros e.
    destruct (Hcases w h) as [[Hc ->] | [[Hc ->] | [[Hc1 Hc2] ->]]];
      intros [= <-]; discriminate.
  - destruct (Hcases w h) as [[Hc ->] | [[Hc ->] | [[Hc1 Hc2] ->]]];
      destruct (Hcases h w) as [[Hd ->] | [[Hd ->] | [[Hd1 Hd2] ->]]];
      try reflexivity; unfold dimension_ok in *; lia.
Qed.



(** X16. [NewResizer] normalizes: making a resizer again from the
    configuration of a resizer it made gives the same resizer. *)
Theorem NewResizer_idempotent (cfg : Config) (r : Resizer) :
  NewResizer cfg = Ok r -> NewResizer (config r) = Ok r.
Proof.
  pose proof (NewResizer_cases cfg) as H1.
  destruct (ValidateDimensions (TargetWidth cfg) (TargetHeight cfg))
    as [[] | e0] eqn:Hv; rewrite H1; [| discriminate].
  intros [= <-].
  pose proof (NewResizer_cases
                {| TargetWidth := TargetWidth cfg;
                   TargetHeight := TargetHeight cfg;
                   Quality := normal_quality (Quality cfg) |}) as H2.
  cbn [config TargetWidth TargetHeight Quality] in *.
  rewrite Hv in H2. rewrite H2. do 2 f_equal.
  unfold normal_quality.
  destruct (Z.ltb_spec (Quality cfg) 0); cbn [orb]; [reflexivity |].
  destruct (Z.gtb_spec (Quality cfg) 100); cbn [orb]; [reflexivity |].
  destruct (Z.ltb_spec (Quality cfg) 0); cbn [orb]; [lia |].
  destruct (Z.gtb_spec (Quality cfg) 100); [lia | reflexivity].
Qed.

Lemma NewResizer_idempotent_witness :
  exists r, NewResizer cfg_q999 = Ok r /\ NewResizer (config r) = Ok r.
Proof.
  eexists. split; [reflexivity |].
  apply (NewResizer_idempotent cfg_q999). reflexivity.
Defined.

(** * The files and the command: properties *)

(** ** Paths and formats *)

Lemma ValidatePath_ok (path : String.string) :
  ValidatePath path = None <-> 1 <= Z.of_nat (String.length path) <= 4096.
Proof.
  unfold ValidatePath, maxPathLength.
  destruct (String.eqb_spec path String.EmptyString) as [-> | Hne].
  - cbn. split; [discriminate | lia].
  - assert (Hlen : 1 <= Z.of_nat (String.length path))
      by (destruct path; [congruence | cbn [String.length]; lia]).
    destruct (Z.gtb_spec (Z.of_nat (String.length path)) 4096);
      split; try discriminate; try reflexivity; lia.
Qed.

(** The list [SupportedFormats] holds exactly the extensions with a
    decoder; an encoder of an extension is its decoder; ".webp" alone has a
    decoder and no encoder. *)
Lemma codecs_of_extension (ext : String.string) :
  (imageio.supported ext imageio.SupportedFormats = true
   <-> exists format, imageio.decoder_of ext = Some format) /\
  (forall format, imageio.encoder_of ext = Some format ->
                  imageio.decoder_of ext = Some format) /\
  (imageio.decoder_of ext <> None /\ imageio.encoder_of ext = None
   <-> ext = imageio.webp).
Proof.
  unfold imageio.supported, imageio.SupportedFormats, imageio.decoder_of,
    imageio.encoder_of, imageio.webp.
  repeat match goal with
  | |- context [String.eqb ext ?l] =>
      destruct (String.eqb_spec ext l) as [-> | ?]; cbn
  end;
  (split; [split; [intros; eauto; try discriminate
                  | intros [f Hf]; congruence || reflexivity]
          | split; [intros f Hf; congruence
                   | split; [intros [Hd He]; congruence
                            | intros Hw; try congruence;
                              split; congruence]]]).
Qed.

(** ** [LoadImage] and [SaveImage] *)

Section ImageioAnySystem.
Context {World File : Type} `{System World File}.

(** X17. [GetImageFormat] accepts a path exactly when [ValidatePath] does
    and [LoadImage] has a decoder for its extension, which it returns: the
    list [SupportedFormats] it searches and the [switch] of [LoadImage] name
    the same extensions. [SaveImage] has an encoder, of the same format, for
    each of them but one: it refuses ".webp", which the other two accept. *)
Theorem GetImageFormat_and_codecs (path ext : String.string) :
  (imageio.GetImageFormat path = Success ext
   <-> ValidatePath path = None /\ extension path = ext /\
       exists format, imageio.decoder_of ext = Some format) /\
  (forall format, imageio.encoder_of ext = Some format ->
                  imageio.decoder_of ext = Some format) /\
  (imageio.decoder_of ext <> None /\ imageio.encoder_of ext = None
   <-> ext = imageio.webp).
Proof.
  destruct (codecs_of_extension ext) as (_ & Henc & Hwebp).
  split; [| split; assumption].
  unfold imageio.GetImageFormat.
  destruct (ValidatePath path) as [e |].
  - split; [discriminate | intros [[=] _]].
  - cbv zeta. destruct (codecs_of_extension (extension path)) as (Hsup & _).
    destruct (imageio.supported (extension path) imageio.SupportedFormats).
    + split.
      * intros [= <-]. split; [reflexivity |]. split; [reflexivity |].
        now apply Hsup.
      * intros (_ & <- & _). reflexivity.
    + split; [discriminate |]. intros (_ & <- & Hdec).
      apply Hsup in Hdec. discriminate.
Qed.

Lemma LoadImage_never_nil (path : String.string) (w w' : World) :
  imageio.LoadImage path w <> (Success None, w').
Proof.
  unfold imageio.LoadImage, imageio.closing.
  destruct (ValidatePath path); [discriminate |].
  destruct (os_Open path w) as [[file | text |] w1]; try discriminate.
  destruct (file_Stat_Size file w1) as [size | text |]; try discriminate.
  destruct (size >? MaxFileSize); [discriminate |].
  destruct (imageio.decoder_of (extension path)); [| discriminate].
  destruct (decode _ file w1) as [[[img |] | text |] w2]; discriminate.
Qed.

(** X18. For every operating system and codec: [LoadImage] never returns
    a nil image without an error; a path [ValidatePath] refuses is answered
    with [ErrFileOpen] before anything outside is touched; and a file that
    was opened is closed on every way out, a panic of a decoder included. *)
Theorem LoadImage_contract (path : String.string) (w : World) :
  (forall w', imageio.LoadImage path w <> (Success None, w')) /\
  (forall e, ValidatePath path = Some e ->
     imageio.LoadImage path w
     = (Failure (imageio.Errorf imageio.ErrFileOpen (imageio.OfPath e)), w)) /\
  (forall file w1,
     ValidatePath path = None -> os_Open path w = (Success file, w1) ->
     exists w2, snd (imageio.LoadImage path w) = file_Close file w2).
Proof.
  split; [| split]; [| unfold imageio.LoadImage, imageio.closing ..].
  - intros w'. apply LoadImage_never_nil.
  - intros e ->. reflexivity.
  - intros file w1 -> ->.
    destruct (file_Stat_Size file w1) as [size | text |];
      try (eexists; reflexivity).
    destruct (size >? MaxFileSize); [eexists; reflexivity |].
    destruct (imageio.decoder_of (extension path));
      [| eexists; reflexivity].
    destruct (decode _ file w1) as [[[img |] | text |] w2];
      eexists; reflexivity.
Qed.

(** What [SaveImage] accepts: an image of the resizer with a buffer whose
    dimensions [ValidateDimensions] passes. *)
Lemma SaveImage_unfold (path : String.string) (k : Kind) (dst : Buffer)
    (w : World) :
  ValidatePath path = None ->
  ValidateDimensions (Dx (Rect dst)) (Dy (Rect dst)) = Ok tt ->
  imageio.SaveImage path (Pointer k (Some dst)) w
  = match os_MkdirAll (directory path) w with
    | (Panicked, w) => (Panicked, w)
    | (Failure text, w) =>
        (Failure (imageio.Errorf imageio.ErrFileCreate
                    (imageio.CannotCreateDirectory text)), w)
    | (Success _, w) =>
      match os_Create path w with
      | (Panicked, w) => (Panicked, w)
      | (Failure text, w) =>
          (Failure (imageio.Errorf imageio.ErrFileCreate
                      (imageio.OfSystem text)), w)
      | (Success file, w) =>
          match imageio.encoder_of (extension path) with
          | None =>
              (Failure (imageio.Errorf imageio.ErrUnsupportedFormat
                          (imageio.UnsupportedExtension (extension path))),
               file_Close file w)
          | Some format =>
              match encode format file (Pointer k (Some dst)) w with
              | (Panicked, w) => (Panicked, file_Close file w)
              | (Failure text, w) =>
                  (Failure (imageio.Errorf imageio.ErrEncode
                              (imageio.OfSystem text)), file_Close file w)
              | (Success _, w) => (Success tt, file_Close file w)
              end
          end
      end
    end.
Proof.
  intros Hp Hd. unfold imageio.SaveImage, imageio.closing.
  rewrite Hp. cbv zeta. rewrite Hd.
  destruct (os_MkdirAll (directory path) w) as [[[] | text |] w1];
    try reflexivity.
  destruct (os_Create path w1) as [[file | text |] w2]; try reflexivity.
  destruct (imageio.encoder_of (extension path)); [| reflexivity].
  destruct (encode _ file _ w2) as [[[] | text |] w3]; reflexivity.
Qed.

(** X19. For every operating system and codec. What [SaveImage] refuses by
    itself (a path [ValidatePath] refuses, the nil image, a buffer whose
    dimensions [ValidateDimensions] refuses) is answered with
    [ErrFileCreate] and nothing outside is touched. An extension without an
    encoder is found out later: the directory and the file have been created
    by then, so the call fails with [ErrUnsupportedFormat] and leaves the
    new file behind, closed and with nothing encoded into it. *)
Theorem SaveImage_contract (path : String.string) (img : ImageValue)
    (w : World) :
  (ValidatePath path <> None \/ img = NilInterface \/
   (exists k dst, img = Pointer k (Some dst) /\
      ValidateDimensions (Dx (Rect dst)) (Dy (Rect dst)) <> Ok tt) ->
   exists d,
     imageio.SaveImage path img w
     = (Failure (imageio.Errorf imageio.ErrFileCreate d), w)) /\
  (forall k dst u w1 file w2,
     img = Pointer k (Some dst) ->
     ValidatePath path = None ->
     ValidateDimensions (Dx (Rect dst)) (Dy (Rect dst)) = Ok tt ->
     imageio.encoder_of (extension path) = None ->
     os_MkdirAll (directory path) w = (Success u, w1) ->
     os_Create path w1 = (Success file, w2) ->
     imageio.SaveImage path img w
     = (Failure (imageio.Errorf imageio.ErrUnsupportedFormat
                   (imageio.UnsupportedExtension (extension path))),
        file_Close file w2)).
Proof.
  split.
  - intros Hrefused. unfold imageio.SaveImage.
    destruct (ValidatePath path) as [e |]; [eexists; reflexivity |].
    destruct Hrefused as [Hp | [-> | (k & dst & -> & Hd)]];
      [congruence | eexists; reflexivity |].
    cbv zeta.
    destruct (ValidateDimensions _ _) as [[] | e]; [congruence |].
    eexists; reflexivity.
  - intros k dst u w1 file w2 -> Hp Hd Hext Hmk Hcr.
    rewrite SaveImage_unfold by assumption.
    rewrite Hmk, Hcr, Hext. reflexivity.
Qed.

End ImageioAnySystem.

(** In the system of the scenarios: saving the 8 by 8 gray image as
    [out.webp] fails, and the file is there, empty. *)
Lemma SaveImage_contract_witness :
  imageio.SaveImage (H:=scenario.memory) scenario.out_webp
    (Pointer KGray (Some gray_8x8)) []
  = (Failure (imageio.Errorf imageio.ErrUnsupportedFormat
                (imageio.UnsupportedExtension imageio.webp)),
     [(scenario.out_webp, None, NilInterface)]).
Proof.
  destruct (SaveImage_contract (H:=scenario.memory) scenario.out_webp
              (Pointer KGray (Some gray_8x8)) []) as [_ Hlate].
  apply (Hlate KGray gray_8x8 tt [] scenario.out_webp
           [(scenario.out_webp, None, NilInterface)]);
    reflexivity.
Defined.

(** ** [run] *)

Section CommandAnySystem.
Context {F : Type} `{Float64Ops F}.
Context {World File : Type} `{System World File}.

Lemma ValidateResizeRatio_target (sw sh tw th : Z) :
  ValidateResizeRatio sw sh tw th = Ok tt ->
  ValidateDimensions tw th = Ok tt.
Proof.
  unfold ValidateResizeRatio.
  destruct (ValidateDimensions sw sh); [| discriminate].
  destruct (ValidateDimensions tw th) as [[] | e]; [reflexivity | discriminate].
Qed.

(** [run] follows one of the ways of [run_path]. *)
Lemma run_follows_a_path (cfg : main.Config) (s : main.State) :
  run_path cfg s (main.run (Some cfg) s).
Proof.
  unfold main.run, main.and_then, main.say, main.calling, main.stop.
  cbn [fst snd].
  destruct (imageio.LoadImage (main.InputPath cfg) (fst s))
    as [[[img |] | e |] w] eqn:Hload.
  2:{ exfalso. eapply LoadImage_never_nil. exact Hload. }
  2:{ now apply load_fails. }
  2:{ now apply load_panics. }
  cbv zeta. cbn [fst snd].
  destruct (ValidateResizeRatio _ _ _ _) as [[] | e] eqn:Hratio.
  2:{ now apply (request_refused cfg s img w e). }
  pose proof (ValidateResizeRatio_target _ _ _ _ Hratio) as Htarget.
  pose proof (NewResizer_cases
                {| TargetWidth := main.Width cfg;
                   TargetHeight := main.Height cfg;
                   Quality := 100 |}) as Hnew.
  cbn [TargetWidth TargetHeight Quality] in Hnew.
  rewrite Htarget in Hnew. rewrite Hnew.
  change (normal_quality 100) with 100. fold (resizer_of cfg).
  cbn [fst snd].
  destruct (Resize (resizer_of cfg) (Some img) []) as [[out [e |]] t'] eqn:Hrun.
  { pose proof (resize_fails cfg s img w out e Hload Hratio) as Hfail.
    rewrite Hrun in Hfail. specialize (Hfail eq_refl).
    cbn [fst]. destruct out as [| k [dst |]]; exact Hfail. }
  destruct (Resize_success_frame _ _ _ _ _ Hrun)
    as (dst & -> & _ & _ & Hrect & _).
  cbn [fst]. cbn [Rect NewBuffer] in Hrect.
  apply ValidateDimensions_ok in Htarget as [Htw Hth].
  destruct (Rect0_size _ _ Htw Hth) as [Hdx Hdy].
  rewrite Hrect.
  change (TargetWidth (config (resizer_of cfg))) with (main.Width cfg).
  change (TargetHeight (config (resizer_of cfg))) with (main.Height cfg).
  rewrite Hdx, Hdy, !Z.eqb_refl. cbn [negb orb fst snd].
  pose proof (saving cfg s img w dst Hload Hratio) as Hsave.
  rewrite Hrun in Hsave. specialize (Hsave eq_refl Hrect).
  destruct (imageio.SaveImage _ _ w) as [[[] | e |] w']; exact Hsave.
Qed.

End CommandAnySystem.

(** ** [parseFlags] *)

(** One answer of [parseFlags] against the five parts of its description:
    what is left is arithmetic on the lengths and the dimensions. *)
Ltac parse_case :=
  split; [intros cfg' Hx; first [discriminate | congruence] |];
  split; [intros [Hx | Hx]; discriminate |];
  split;
    [intros _ _; split;
       [intros Hx; first [discriminate | unfold dimension_ok in *; lia]
       | intros Hconds;
         first [reflexivity | exfalso; unfold dimension_ok in *; lia]]
    |];
  split;
    [intros e Hx; first
       [discriminate
       | injection Hx as <-;
         split; [intros p [Hp | Hp] | intros d Hd];
         first [discriminate | congruence | exfalso; lia]]
    | discriminate].

(** X20. [parseFlags] returns the configuration it was given or an error.
    With the help or the version flag it accepts whatever the other flags
    are. Without them it accepts exactly when both paths have between 1 and
    4096 bytes and the width and the height lie in [1, 65535]. Three of the
    errors it could wrap never reach it: an empty path and a dimension below
    1 are refused by its own tests before the validators are called, so a
    path error is the one of the length and a dimension error is the one
    of the maximum. *)
Theorem parseFlags_accepts (cfg : main.Config) :
  (forall cfg', main.parseFlags cfg = Success cfg' -> cfg' = cfg) /\
  (main.ShowHelp cfg = true \/ main.ShowVer cfg = true ->
   main.parseFlags cfg = Success cfg) /\
  (main.ShowHelp cfg = false -> main.ShowVer cfg = false ->
   (main.parseFlags cfg = Success cfg
    <-> 1 <= Z.of_nat (String.length (main.InputPath cfg)) <= 4096 /\
        1 <= Z.of_nat (String.length (main.OutputPath cfg)) <= 4096 /\
        dimension_ok (main.Width cfg) /\ dimension_ok (main.Height cfg))) /\
  (forall e, main.parseFlags cfg = Failure e ->
     (forall p, e = main.InvalidInputPath p \/ e = main.InvalidOutputPath p ->
                p = PathExceedsMaximumLength) /\
     (forall d, e = main.InvalidDimensions d ->
                d = Wrapped DimensionsTooLarge (Plain ErrInvalidDimension))) /\
  main.parseFlags cfg <> Panicked.
Proof.
  assert (Hlen : forall path : String.string,
             path <> String.EmptyString ->
             1 <= Z.of_nat (String.length path))
    by (intros [| ch rest] Hne; [congruence | cbn [String.length]; lia]).
  pose proof (ValidateDimensions_cases (main.Width cfg) (main.Height cfg))
    as Hdim.
  unfold main.parseFlags, ValidatePath, maxPathLength.
  destruct (main.ShowHelp cfg);
    [repeat split; congruence || discriminate |].
  destruct (main.ShowVer cfg);
    [repeat split; congruence || discriminate |].
  destruct (String.eqb_spec (main.InputPath cfg) String.EmptyString)
    as [Hi | Hi];
    [rewrite Hi; cbn [String.length] | apply Hlen in Hi];
    [parse_case |].
  destruct (String.eqb_spec (main.OutputPath cfg) String.EmptyString)
    as [Ho | Ho];
    [rewrite Ho; cbn [String.length] | apply Hlen in Ho];
    [parse_case |].
  destruct (Z.leb_spec (main.Width cfg) 0); [parse_case |].
  destruct (Z.leb_spec (main.Height cfg) 0); [parse_case |].
  destruct (Z.gtb_spec (Z.of_nat (String.length (main.InputPath cfg))) 4096);
    [parse_case |].
  destruct (Z.gtb_spec (Z.of_nat (String.length (main.OutputPath cfg))) 4096);
    [parse_case |].
  destruct Hdim as [[Hc Hv] | [[Hc Hv] | [Hc Hv]]]; rewrite Hv; parse_case.
Qed.

Lemma parseFlags_accepts_witness :
  main.parseFlags scenario.help_request = Success scenario.help_request /\
  main.parseFlags scenario.request = Success scenario.request /\
  main.parseFlags scenario.tall_request
  = Failure (main.InvalidDimensions
               (Wrapped DimensionsTooLarge (Plain ErrInvalidDimension))).
Proof.
  destruct (parseFlags_accepts scenario.help_request) as (_ & Hhelp & _).
  destruct (parseFlags_accepts scenario.request) as (_ & _ & Hplain & _).
  destruct (parseFlags_accepts scenario.tall_request) as (_ & _ & _ & Herr & _).
  split; [apply Hhelp; left; reflexivity |].
  split.
  - apply Hplain; [reflexivity | reflexivity |].
    unfold dimension_ok. cbn. lia.
  - destruct (Herr _ eq_refl) as [_ Hd]. reflexivity.
Defined.

Section RunAnySystem.
Context {F : Type} `{Float64Ops F}.
Context {World File : Type} `{System World File}.

(** X21. For every instance, operating system and codec. Of the nine
    errors [run] can return for a configuration, only four are ever
    returned: the ones that wrap the error of [LoadImage], of
    [ValidateResizeRatio], of [Resize] and of [SaveImage]. The other tests
    never fire: an image loaded without an error is not nil, [NewResizer]
    accepts every target [ValidateResizeRatio] accepted, an image resized
    without an error is not nil and has the target's size. And [run] panics
    only where [LoadImage] or [SaveImage] does, the latter on an image with
    a buffer: [Bounds] is never called on a nil pointer. *)
Theorem run_live_errors (cfg : main.Config) (s : main.State) :
  (forall e s', main.run (Some cfg) s = (Failure e, s') ->
     (exists d, e = main.FailedToLoadImage d) \/
     (exists d, e = main.InvalidResizeParameters d) \/
     (exists d, e = main.ResizeFailed d) \/
     (exists d, e = main.FailedToSaveImage d)) /\
  (forall s', main.run (Some cfg) s = (Panicked, s') ->
     (exists w,
         imageio.LoadImage (main.InputPath cfg) (fst s) = (Panicked, w)) \/
     (exists k dst w w',
         imageio.SaveImage (main.OutputPath cfg) (Pointer k (Some dst)) w
         = (Panicked, w'))).
Proof.
  pose proof (run_follows_a_path cfg s) as Hpath.
  remember (main.run (Some cfg) s) as res eqn:Hres. clear Hres.
  split.
  - intros e0 s' ->.
    remember (Failure e0, s') as res eqn:Hres.
    destruct Hpath as [w | e w | img w e | img w out e | img w dst];
      try discriminate; try (injection Hres as <- _; eauto 6; fail).
    destruct (imageio.SaveImage _ _ w) as [[[] | e |] w'];
      try discriminate.
    injection Hres as <- _. eauto 6.
  - intros s' ->.
    remember (Panicked, s') as res eqn:Hres.
    destruct Hpath as [w Hl | e w | img w e | img w out e | img w dst];
      try discriminate; [left; eauto |].
    destruct (imageio.SaveImage _ _ w) as [[[] | e |] w'] eqn:Hs;
      try discriminate.
    right. eauto 6.
Qed.

(** X22. For every instance, operating system and codec: [run] completes
    exactly when the image was loaded, the request passed
    [ValidateResizeRatio], [Resize] returned no error and [SaveImage] saved
    the image [Resize] returned, whose rectangle is the one of the target,
    at the origin. The six lines of a completed run are then printed in
    their order, and the world is the one [SaveImage] left. *)
Theorem run_completes (cfg : main.Config) (s s' : main.State) :
  main.run (Some cfg) s = (Success tt, s')
  <-> exists img w dst,
        imageio.LoadImage (main.InputPath cfg) (fst s)
        = (Success (Some img), w) /\
        ValidateResizeRatio (Dx (Bounds img)) (Dy (Bounds img))
          (main.Width cfg) (main.Height cfg) = Ok tt /\
        fst (Resize (resizer_of cfg) (Some img) [])
        = (Pointer (kind_of_model (Model img)) (Some dst), None) /\
        Rect dst = Rect0 (main.Width cfg) (main.Height cfg) /\
        imageio.SaveImage (main.OutputPath cfg)
          (Pointer (kind_of_model (Model img)) (Some dst)) w
        = (Success tt, fst s') /\
        snd s' = main.ResizeCompleted :: lines_at_save cfg img (snd s).
Proof.
  pose proof (run_follows_a_path cfg s) as Hpath.
  split.
  - intros Hrun. rewrite Hrun in Hpath.
    remember (Success tt, s') as res eqn:Hres.
    destruct Hpath as [w | e w | img w e | img w out e
                      | img w dst Hload Hratio Hresize Hrect];
      try discriminate.
    exists img, w, dst.
    destruct (imageio.SaveImage _ _ w) as [[[] | e |] w'];
      try discriminate.
    injection Hres as <-. cbn [fst snd]. auto 7.
  - intros (img & w & dst & Hload & Hratio & Hresize & Hrect & Hsave & Hlines).
    destruct Hpath as [w0 Hl | e w0 Hl | img0 w0 e Hl Hr
                      | img0 w0 out e Hl Hr Hz
                      | img0 w0 dst0 Hl Hr Hz _];
      try congruence.
    assert (img0 = img) by congruence. subst img0.
    assert (w0 = w) by congruence. subst w0.
    assert (dst0 = dst) by congruence. subst dst0.
    rewrite Hsave, <- Hlines. now destruct s'.
Qed.

End RunAnySystem.

Section RunExactly.
Context {World File : Type} `{System World File}.


End RunExactly.


(** ** [main] *)

Lemma parseFlags_returns_its_argument (cfg cfg' : main.Config) :
  main.parseFlags cfg = Success cfg' -> cfg' = cfg.
Proof.
  unfold main.parseFlags.
  repeat match goal with
  | |- context [if ?b then _ else _] => destruct b
  end; try discriminate; try congruence.
  destruct (ValidatePath (main.InputPath cfg)); [discriminate |].
  destruct (ValidatePath (main.OutputPath cfg)); [discriminate |].
  destruct (ValidateDimensions _ _); [congruence | discriminate].
Qed.

Lemma parseFlags_help (cfg : main.Config) :
  main.ShowHelp cfg = true \/ main.ShowVer cfg = true ->
  main.parseFlags cfg = Success cfg.
Proof.
  unfold main.parseFlags. intros [-> | ->]; [reflexivity |].
  now destruct (main.ShowHelp cfg).
Qed.

Section MainAnySystem.
Context {F : Type} `{Float64Ops F}.
Context {World File : Type} `{System World File}.

(** X24. For every instance, operating system and codec. With the help
    flag [main] prints the help and exits with 0, whatever the other flags
    are, and with the version flag alone the same for the version: no file
    is touched. Flags that [parseFlags] refuses give the error, the help and
    the exit code 1, again with no file touched. Otherwise the exit code is
    that of [run]: 0 exactly when it completed, 1 when it returned an error,
    and no exit code of [main]'s own when it panicked. *)
Theorem main_exit_code (parsed : main.Config) (s : main.State) :
  (main.ShowHelp parsed = true ->
   main.main parsed s = (Some 0, (fst s, main.HelpText :: snd s))) /\
  (main.ShowHelp parsed = false -> main.ShowVer parsed = true ->
   main.main parsed s = (Some 0, (fst s, main.VersionText :: snd s))) /\
  (forall e, main.parseFlags parsed = Failure e ->
     main.main parsed s
     = (Some 1, (fst s, main.HelpText :: main.ErrorLine e :: snd s))) /\
  (forall code s', main.main parsed s = (Some code, s') ->
                   code = 0 \/ code = 1) /\
  (main.ShowHelp parsed = false -> main.ShowVer parsed = false ->
   forall s',
     (main.main parsed s = (Some 0, s')
      <-> main.parseFlags parsed = Success parsed /\
          main.run (Some parsed) s = (Success tt, s')) /\
     (main.main parsed s = (None, s')
      <-> main.parseFlags parsed = Success parsed /\
          main.run (Some parsed) s = (Panicked, s'))).
Proof.
  unfold main.main, main.ExitSuccess, main.ExitError.
  destruct (main.parseFlags parsed) as [cfg | e |] eqn:Hparse.
  - apply parseFlags_returns_its_argument in Hparse as Hsame. subst cfg.
    split; [intros ->; reflexivity |].
    split; [intros -> ->; reflexivity |].
    split; [discriminate |].
    split.
    + intros code s'.
      destruct (main.ShowHelp parsed); [intros [= <- _]; now left |].
      destruct (main.ShowVer parsed); [intros [= <- _]; now left |].
      destruct (main.run (Some parsed) s) as [[[] | e |] s1];
        intros [= <- _]; auto.
    + intros -> -> s'.
      destruct (main.run (Some parsed) s) as [[[] | e |] s1];
        (split;
         (split;
          [intros Hm; try discriminate; injection Hm as <-; split; reflexivity
          | intros [_ Hr]; try discriminate; injection Hr as <-; reflexivity])).
  - split; [intros Hh | split; [intros _ Hh |]];
      try (rewrite parseFlags_help in Hparse by auto; discriminate).
    split; [intros e0 [= <-]; reflexivity |].
    split; [intros code s' [= <- _]; now right |].
    intros _ _ s'. split; split; try discriminate; intros [[=] _].
  - split; [intros Hh | split; [intros _ Hh |]];
      try (rewrite parseFlags_help in Hparse by auto; discriminate).
    split; [discriminate |].
    split; [discriminate |].
    intros _ _ s'. split; split; try discriminate; try (intros [[=] _]).
    exfalso. revert Hparse. unfold main.parseFlags.
    repeat match goal with
    | |- context [if ?b then _ else _] => destruct b
    end; try discriminate.
    destruct (ValidatePath (main.InputPath parsed)); [discriminate |].
    destruct (ValidatePath (main.OutputPath parsed)); [discriminate |].
    destruct (ValidateDimensions _ _); discriminate.
Qed.

End MainAnySystem.

(** On binary64, in the system of the scenarios: the flags
    [-i in.png -o out.png -w 8 -h 8] end with the exit code 0, the six lines
    and the 8 by 8 gray image in [out.png]; the help flag ends with the exit
    code 0 and the help alone. *)
Lemma main_exit_code_witness :
  main.main (F:=float) (H0:=scenario.memory) scenario.help_request ([], [])
  = (Some 0, ([], [main.HelpText])) /\
  (main.main (F:=float) (H0:=scenario.memory) scenario.request ([], [])
   = (Some 0,
      ([(scenario.out_png, Some PNG, Pointer KGray (Some gray_8x8))],
       [main.ResizeCompleted;
        main.SavingImage scenario.out_png;
        main.ResizingImage;
        main.TargetDimensions 8 8;
        main.SourceDimensions 4 4;
        main.LoadingImage scenario.in_png]))
   <-> main.parseFlags scenario.request = Success scenario.request /\
       main.run (F:=float) (H0:=scenario.memory) (Some scenario.request)
         ([], [])
       = (Success tt,
          ([(scenario.out_png, Some PNG, Pointer KGray (Some gray_8x8))],
           [main.ResizeCompleted;
            main.SavingImage scenario.out_png;
            main.ResizingImage;
            main.TargetDimensions 8 8;
            main.SourceDimensions 4 4;
            main.LoadingImage scenario.in_png]))).
Proof.
  destruct (main_exit_code (F:=float) (H0:=scenario.memory)
              scenario.help_request ([], [])) as (Hhelp & _).
  destruct (main_exit_code (F:=float) (H0:=scenario.memory)
              scenario.request ([], [])) as (_ & _ & _ & _ & Hrun).
  split; [apply Hhelp; reflexivity |].
  apply Hrun; reflexivity.
Defined.

(** The two runs of the scenarios, evaluated. *)
Example main_binary64 :
  main.main (F:=float) (H0:=scenario.memory) scenario.request ([], [])
  = (Some 0,
     ([(scenario.out_png, Some PNG, Pointer KGray (Some gray_8x8))],
      [main.ResizeCompleted;
       main.SavingImage scenario.out_png;
       main.ResizingImage;
       main.TargetDimensions 8 8;
       main.SourceDimensions 4 4;
       main.LoadingImage scenario.in_png])) /\
  main.main (F:=float) (H0:=scenario.memory) scenario.tall_request ([], [])
  = (Some 1,
     ([], [main.HelpText;
           main.ErrorLine
             (main.InvalidDimensions
                (Wrapped DimensionsTooLarge (Plain ErrInvalidDimension)))])).
Proof. split; vm_compute; reflexivity. Qed.
